(** * Stream assembler of the chat client (src/src/App.tsx)

    The file holds two variants of the [App] component.  Both read the body
    of [POST /api/chat/stream] chunk by chunk inside [handleSubmit], decode
    each chunk, split it on line feeds and classify every [data: ] line.
    This development embeds both loops, together with the JavaScript string
    operations, the [TextDecoder] and [JSON.parse] they call, and states
    the properties of the stream protocol over that embedding. *)

From Stdlib.Strings Require Import String Ascii Byte.
From Stdlib Require Import List NArith ZArith Bool Lia Sorted DecimalString.
Import ListNotations.
Local Open Scope N_scope.

(** ** JavaScript strings

    A JavaScript string is a sequence of UTF-16 code units. *)

Module JsString.

Definition t := list N.

(** An ASCII literal of the source, as code units. *)
Definition lit (s : string) : t := map Byte.to_N (list_byte_of_string s).

Fixpoint eqb (a b : t) : bool :=
  match a, b with
  | [], [] => true
  | c :: a', d :: b' => (c =? d) && eqb a' b'
  | _, _ => false
  end.

(** [s.startsWith(p)] *)
Fixpoint startsWith (s p : t) {struct p} : bool :=
  match p, s with
  | [], _ => true
  | c :: p', d :: s' => (d =? c) && startsWith s' p'
  | _ :: _, [] => false
  end.

(** [s.endsWith(p)] *)
Definition endsWith (s p : t) : bool := startsWith (rev s) (rev p).

(** [s.includes(p)] *)
Fixpoint includes (s p : t) : bool :=
  match s with
  | [] => startsWith [] p
  | _ :: s' => startsWith s p || includes s' p
  end.

(** Relative index resolution of [slice]: a negative index counts from the
    end, and the result is clamped to [0 .. len]. *)
Definition clamp (len i : Z) : Z :=
  if (i <? 0)%Z then Z.max (len + i) 0 else Z.min i len.

(** [s.slice(start, stop)] *)
Definition slice (s : t) (start stop : Z) : t :=
  let len := Z.of_nat (length s) in
  let from := clamp len start in
  let to := clamp len stop in
  firstn (Z.to_nat (to - from)) (skipn (Z.to_nat from) s).

(** [s.slice(start)] *)
Definition slice_from (s : t) (start : Z) : t :=
  slice s start (Z.of_nat (length s)).

(** [s.split(sep)] for a separator of one code unit. *)
Fixpoint split (sep : N) (s : t) : list t :=
  match s with
  | [] => [[]]
  | c :: s' =>
      if c =? sep then [] :: split sep s'
      else match split sep s' with
           | [] => [[c]]
           | l :: ls => (c :: l) :: ls
           end
  end.

(** White space and line terminators of ECMAScript, the code units that
    [trim] removes. *)
Definition isWhiteSpace (c : N) : bool :=
  (c =? 0x09) || (c =? 0x0A) || (c =? 0x0B) || (c =? 0x0C) || (c =? 0x0D)
  || (c =? 0x20) || (c =? 0xA0) || (c =? 0x1680)
  || ((0x2000 <=? c) && (c <=? 0x200A))
  || (c =? 0x2028) || (c =? 0x2029) || (c =? 0x202F) || (c =? 0x205F)
  || (c =? 0x3000) || (c =? 0xFEFF).

Fixpoint trimStart (s : t) : t :=
  match s with
  | [] => []
  | c :: s' => if isWhiteSpace c then trimStart s' else s
  end.

Definition trimEnd (s : t) : t := rev (trimStart (rev s)).

(** [s.trim()] *)
Definition trim (s : t) : t := trimEnd (trimStart s).

(** [s.replace(pat, rep)] for a string pattern: the first occurrence only.
    The replacement strings of the source hold no [$] pattern. *)
Fixpoint replace (s pat rep : t) : t :=
  match s with
  | [] => if startsWith [] pat then rep else []
  | c :: s' =>
      if startsWith s pat then rep ++ skipn (length pat) s
      else c :: replace s' pat rep
  end.

(** Truthiness of a string: the empty string is falsy. *)
Definition truthy (s : t) : bool :=
  match s with [] => false | _ :: _ => true end.

(** Truthiness of [string | null]. *)
Definition truthy_opt (o : option t) : bool :=
  match o with None => false | Some s => truthy s end.

Definition nl : N := 0x0A.

End JsString.

(** ** TextDecoder

    [new TextDecoder()] is a UTF-8 decoder with [fatal = false] and
    [ignoreBOM = false]; [decoder.decode(value)] without the [stream]
    option flushes and resets the decoder at every call.  The handler
    follows the UTF-8 decoder of the WHATWG Encoding standard. *)

Module TextDecoder.

Record state := mkState {
  code_point : N;
  bytes_seen : N;
  bytes_needed : N;
  lower_boundary : N;
  upper_boundary : N
}.

Definition init : state := mkState 0 0 0 0x80 0xBF.

Definition replacement : N := 0xFFFD.

(** The handler when no byte is pending (step 3 of the standard). *)
Definition lead (b : N) : state * list N :=
  if b <=? 0x7F then (init, [b])
  else if (0xC2 <=? b) && (b <=? 0xDF) then
    (mkState (N.land b 0x1F) 0 1 0x80 0xBF, [])
  else if (0xE0 <=? b) && (b <=? 0xEF) then
    (mkState (N.land b 0xF) 0 2
       (if b =? 0xE0 then 0xA0 else 0x80)
       (if b =? 0xED then 0x9F else 0xBF), [])
  else if (0xF0 <=? b) && (b <=? 0xF4) then
    (mkState (N.land b 0x7) 0 3
       (if b =? 0xF0 then 0x90 else 0x80)
       (if b =? 0xF4 then 0x8F else 0xBF), [])
  else (init, [replacement]).

(** One byte through the handler; the code points it emits.  A byte out
    of the expected range yields U+FFFD and is handled again as a lead. *)
Definition handler (st : state) (b : N) : state * list N :=
  if bytes_needed st =? 0 then lead b
  else if negb ((lower_boundary st <=? b) && (b <=? upper_boundary st)) then
    let '(st', out) := lead b in (st', replacement :: out)
  else
    let cp := N.lor (N.shiftl (code_point st) 6) (N.land b 0x3F) in
    let seen := bytes_seen st + 1 in
    if seen =? bytes_needed st then (init, [cp])
    else (mkState cp seen (bytes_needed st) 0x80 0xBF, []).

Fixpoint run (st : state) (bs : list byte) : state * list N :=
  match bs with
  | [] => (st, [])
  | b :: bs' =>
      let '(st1, out1) := handler st (Byte.to_N b) in
      let '(st2, out2) := run st1 bs' in
      (st2, out1 ++ out2)
  end.

(** End of queue: a pending sequence yields one U+FFFD. *)
Definition flush (st : state) : list N :=
  if bytes_needed st =? 0 then [] else [replacement].

(** The code points of the bytes [bs] and of the end of the queue, for a
    decoder in state [st]. *)
Definition output_from (st : state) (bs : list byte) : list N :=
  let '(st', out) := run st bs in out ++ flush st'.

Definition code_points (bs : list byte) : list N := output_from init bs.


(** A leading U+FEFF is dropped ([ignoreBOM] is false). *)
Definition strip_bom (cps : list N) : list N :=
  match cps with
  | [] => []
  | c :: r => if c =? 0xFEFF then r else cps
  end.

(** A code point as UTF-16 code units. *)
Definition utf16 (cp : N) : list N :=
  if cp <? 0x10000 then [cp]
  else let v := cp - 0x10000 in
       [0xD800 + N.shiftr v 10; 0xDC00 + N.land v 0x3FF].

(** [decoder.decode(value)] *)
Definition decode (bs : list byte) : JsString.t :=
  flat_map utf16 (strip_bom (code_points bs)).

End TextDecoder.

(** ** JSON.parse

    The JSON grammar of ECMA-404 over code units.  [JSON.parse] either
    returns a value or throws a [SyntaxError]; the latter is [None].  A
    number is kept as its literal text (its value as a double is not
    needed here); an object is its members in document order, a repeated
    key keeping its first position and its last value. *)

Module JSON.

Import JsString.

#[local] Set Warnings "-register-all".

Inductive value :=
| Null
| Bool (b : bool)
| Number (literal : JsString.t)
| Str (s : JsString.t)
| Array (elements : list value)
| Object (members : list (JsString.t * value)).

Definition isJsonSpace (c : N) : bool :=
  (c =? 0x09) || (c =? 0x0A) || (c =? 0x0D) || (c =? 0x20).

Fixpoint skip_ws (s : t) : t :=
  match s with
  | [] => []
  | c :: s' => if isJsonSpace c then skip_ws s' else s
  end.

Definition isDigit (c : N) : bool := (0x30 <=? c) && (c <=? 0x39).

Fixpoint span_digits (s : t) : t * t :=
  match s with
  | [] => ([], [])
  | c :: s' =>
      if isDigit c then let '(d, r) := span_digits s' in (c :: d, r)
      else ([], s)
  end.

Definition hex_digit (c : N) : option N :=
  if isDigit c then Some (c - 0x30)
  else if (0x41 <=? c) && (c <=? 0x46) then Some (c - 0x41 + 10)
  else if (0x61 <=? c) && (c <=? 0x66) then Some (c - 0x61 + 10)
  else None.

Definition hex4 (a b c d : N) : option N :=
  match hex_digit a, hex_digit b, hex_digit c, hex_digit d with
  | Some x, Some y, Some z, Some w => Some (((x * 16 + y) * 16 + z) * 16 + w)
  | _, _, _, _ => None
  end.

(** The single-character escapes of a JSON string. *)
Definition unescape (e : N) : option N :=
  if e =? 0x22 then Some 0x22
  else if e =? 0x5C then Some 0x5C
  else if e =? 0x2F then Some 0x2F
  else if e =? 0x62 then Some 0x08
  else if e =? 0x66 then Some 0x0C
  else if e =? 0x6E then Some 0x0A
  else if e =? 0x72 then Some 0x0D
  else if e =? 0x74 then Some 0x09
  else None.

(** The characters of a string after its opening quote, up to and
    including the closing quote. *)
Fixpoint parse_chars (s : t) : option (t * t) :=
  match s with
  | [] => None
  | c :: r =>
      if c =? 0x22 then Some ([], r)
      else if c <? 0x20 then None
      else if c =? 0x5C then
        match r with
        | [] => None
        | e :: r1 =>
            if e =? 0x75 then
              match r1 with
              | h1 :: h2 :: h3 :: h4 :: r2 =>
                  match hex4 h1 h2 h3 h4, parse_chars r2 with
                  | Some u, Some (cs, rest) => Some (u :: cs, rest)
                  | _, _ => None
                  end
              | _ => None
              end
            else
              match unescape e, parse_chars r1 with
              | Some u, Some (cs, rest) => Some (u :: cs, rest)
              | _, _ => None
              end
        end
      else
        match parse_chars r with
        | Some (cs, rest) => Some (c :: cs, rest)
        | None => None
        end
  end.

(** A number: its literal text and the rest of the input. *)
Definition parse_number (s : t) : option (t * t) :=
  let '(sign, s1) :=
    match s with
    | c :: r => if c =? 0x2D then ([c], r) else ([], s)
    | [] => ([], s)
    end in
  let '(int, s2) := span_digits s1 in
  match int with
  | [] => None
  | d :: ds =>
      if (d =? 0x30) && negb (JsString.eqb ds []) then None
      else
        let frac :=
          match s2 with
          | c :: r =>
              if c =? 0x2E then
                let '(fd, r') := span_digits r in
                match fd with [] => None | _ => Some (c :: fd, r') end
              else Some ([], s2)
          | [] => Some ([], s2)
          end in
        match frac with
        | None => None
        | Some (fr, s3) =>
            let exp :=
              match s3 with
              | c :: r =>
                  if (c =? 0x65) || (c =? 0x45) then
                    let '(sg, r1) :=
                      match r with
                      | g :: r' =>
                          if (g =? 0x2B) || (g =? 0x2D) then ([g], r')
                          else ([], r)
                      | [] => ([], r)
                      end in
                    let '(ed, r2) := span_digits r1 in
                    match ed with
                    | [] => None
                    | _ => Some (c :: sg ++ ed, r2)
                    end
                  else Some ([], s3)
              | [] => Some ([], s3)
              end in
            match exp with
            | None => None
            | Some (ex, s4) => Some (sign ++ int ++ fr ++ ex, s4)
            end
        end
  end.

(** Defining a member on the object under construction. *)
Fixpoint set_member (k : t) (v : value) (ms : list (t * value))
  : list (t * value) :=
  match ms with
  | [] => [(k, v)]
  | (k', v') :: ms' =>
      if JsString.eqb k' k then (k', v) :: ms'
      else (k', v') :: set_member k v ms'
  end.

Fixpoint parse_value (fuel : nat) (s : t) {struct fuel} : option (value * t) :=
  match fuel with
  | O => None
  | S f =>
      match skip_ws s with
      | [] => None
      | c :: r =>
          if c =? 0x7B then
            match skip_ws r with
            | d :: r' =>
                if d =? 0x7D then Some (Object [], r')
                else parse_members f (d :: r') []
            | [] => None
            end
          else if c =? 0x5B then
            match skip_ws r with
            | d :: r' =>
                if d =? 0x5D then Some (Array [], r')
                else parse_elements f (d :: r') []
            | [] => None
            end
          else if c =? 0x22 then
            match parse_chars r with
            | Some (cs, rest) => Some (Str cs, rest)
            | None => None
            end
          else if startsWith (c :: r) (lit "true") then
            Some (Bool true, skipn 4 (c :: r))
          else if startsWith (c :: r) (lit "false") then
            Some (Bool false, skipn 5 (c :: r))
          else if startsWith (c :: r) (lit "null") then
            Some (Null, skipn 4 (c :: r))
          else
            match parse_number (c :: r) with
            | Some (n, rest) => Some (Number n, rest)
            | None => None
            end
      end
  end
with parse_elements (fuel : nat) (s : t) (acc : list value) {struct fuel}
  : option (value * t) :=
  match fuel with
  | O => None
  | S f =>
      match parse_value f s with
      | None => None
      | Some (v, r) =>
          match skip_ws r with
          | c :: r' =>
              if c =? 0x2C then parse_elements f r' (acc ++ [v])
              else if c =? 0x5D then Some (Array (acc ++ [v]), r')
              else None
          | [] => None
          end
      end
  end
with parse_members (fuel : nat) (s : t) (acc : list (t * value)) {struct fuel}
  : option (value * t) :=
  match fuel with
  | O => None
  | S f =>
      match skip_ws s with
      | q :: r0 =>
          if q =? 0x22 then
            match parse_chars r0 with
            | None => None
            | Some (k, r1) =>
                match skip_ws r1 with
                | c :: r2 =>
                    if c =? 0x3A then
                      match parse_value f r2 with
                      | None => None
                      | Some (v, r3) =>
                          match skip_ws r3 with
                          | e :: r4 =>
                              if e =? 0x2C then
                                parse_members f r4 (set_member k v acc)
                              else if e =? 0x7D then
                                Some (Object (set_member k v acc), r4)
                              else None
                          | [] => None
                          end
                      end
                    else None
                | [] => None
                end
            end
          else None
      | [] => None
      end
  end.

(** [JSON.parse(text)]: one value, white space around it, nothing else.
    The recursion is bounded by the length of the text. *)
Definition parse (text : t) : option value :=
  match parse_value (2 * length text + 3) text with
  | Some (v, rest) =>
      match skip_ws rest with
      | [] => Some v
      | _ :: _ => None
      end
  | None => None
  end.

End JSON.

(** ** The state of the component

    What [handleSubmit] reads and writes of the component: the [useState]
    cells, the requests it issues, and the answers of the backend. *)

Module App.

Import JsString.

Inductive Role := user | assistant.

(** [interface Message]; [sources] is optional, and at run time holds
    whatever [JSON.parse] returned. *)
Record Message := mkMessage {
  role : Role;
  content : JsString.t;
  sources : option JSON.value
}.

Record ChatHistory := mkChatHistory {
  id : JsString.t;
  title : JsString.t;
  createdAt : JsString.t;
  history_messages : list Message
}.

(** The [useState] cells that [handleSubmit] touches. *)
Record State := mkState {
  messages : list Message;
  input : JsString.t;
  isLoading : bool;
  error : option JsString.t;
  chatHistories : list ChatHistory;
  currentChatId : option JsString.t
}.

Inductive Request :=
| GetHistories
| PostHistory (msgs : list Message) (title : JsString.t)
| PutHistory (chatId : JsString.t) (msgs : list Message) (title : JsString.t)
| PostChatStream (query : JsString.t) (history : list Message).

(** An axios call resolves with the data of the response or rejects; a
    rejection carries [error.response?.data?.detail || error.message]. *)
Inductive Axios (A : Type) :=
| Resolved (data : A)
| Rejected (detail : JsString.t).
Arguments Resolved {A} data.
Arguments Rejected {A} detail.

(** The body of the streaming response: the chunks that [reader.read()]
    yields, after which it reports [done], or rejects when [read_fails]. *)
Record Body := mkBody {
  chunks : list (list byte);
  read_fails : bool
}.

Record Response := mkResponse {
  ok : bool;
  body : option Body
}.

(** The backend as [handleSubmit] sees it.  [get_histories] is the list
    that [fetchChatHistories] stores, already sorted by creation time. *)
Record Env := mkEnv {
  post_history : Axios JsString.t;
  put_history : Axios unit;
  get_histories : Axios (list ChatHistory);
  fetch_chat : option Response
}.

(** A run of [handleSubmit]: the component state, the requests issued so
    far, and every value [setMessages] has given to the message list, in
    order.  State updates take effect in the order they are issued, an
    updater reads the variables it closes over as they are when it is
    issued, and no other handler of the component runs in between. *)
Record Run := mkRun {
  ui : State;
  requests : list Request;
  renders : list (list Message)
}.

Definition start (s : State) : Run := mkRun s [] [].

Definition setMessages (f : list Message -> list Message) (r : Run) : Run :=
  let s := ui r in
  let ms := f (messages s) in
  mkRun (mkState ms (input s) (isLoading s) (error s) (chatHistories s)
           (currentChatId s))
        (requests r) (renders r ++ [ms]).

Definition setInput (v : JsString.t) (r : Run) : Run :=
  let s := ui r in
  mkRun (mkState (messages s) v (isLoading s) (error s) (chatHistories s)
           (currentChatId s))
        (requests r) (renders r).

Definition setIsLoading (v : bool) (r : Run) : Run :=
  let s := ui r in
  mkRun (mkState (messages s) (input s) v (error s) (chatHistories s)
           (currentChatId s))
        (requests r) (renders r).

Definition setError (v : option JsString.t) (r : Run) : Run :=
  let s := ui r in
  mkRun (mkState (messages s) (input s) (isLoading s) v (chatHistories s)
           (currentChatId s))
        (requests r) (renders r).

Definition setChatHistories (v : list ChatHistory) (r : Run) : Run :=
  let s := ui r in
  mkRun (mkState (messages s) (input s) (isLoading s) (error s) v
           (currentChatId s))
        (requests r) (renders r).

Definition setCurrentChatId (v : option JsString.t) (r : Run) : Run :=
  let s := ui r in
  mkRun (mkState (messages s) (input s) (isLoading s) (error s)
           (chatHistories s) v)
        (requests r) (renders r).

Definition send (q : Request) (r : Run) : Run :=
  mkRun (ui r) (requests r ++ [q]) (renders r).

(** [fetchChatHistories]: a failure is only logged to the console. *)
Definition fetchChatHistories (env : Env) (r : Run) : Run :=
  let r := send GetHistories r in
  match get_histories env with
  | Resolved hs => setChatHistories hs r
  | Rejected _ => r
  end.

(** The element at [length - 1] of a copy of the list, replaced. *)
Fixpoint update_last (f : Message -> Message) (ms : list Message)
  : list Message :=
  match ms with
  | [] => []
  | m :: ms' =>
      match ms' with
      | [] => [f m]
      | _ :: _ => m :: update_last f ms'
      end
  end.

Definition set_content (c : JsString.t) (m : Message) : Message :=
  mkMessage (role m) c (sources m).

(** How one line leaves the [for] loop body. *)
Inductive Flow := Continue | Break | Throw.

Section ReadLoop.

Variable Locals : Type.
Variable on_line : JsString.t -> Locals -> Flow * Locals.

(** [for (const line of lines) { ... }]: [true] when the body threw. *)
Fixpoint for_lines (lines : list JsString.t) (l : Locals)
  : bool * Locals :=
  match lines with
  | [] => (false, l)
  | line :: rest =>
      match on_line line l with
      | (Continue, l') => for_lines rest l'
      | (Break, l') => (false, l')
      | (Throw, l') => (true, l')
      end
  end.

(** One turn of [while (true)] for a chunk that [reader.read()]
    returned. *)
Definition on_chunk (value : list byte) (l : Locals) : bool * Locals :=
  for_lines (split nl (TextDecoder.decode value)) l.

(** [while (true) { const { done, value } = await reader.read(); ... }]
    over the chunks of the body; [true] when an exception left it. *)
Fixpoint read_loop (cs : list (list byte)) (fails : bool) (l : Locals)
  : bool * Locals :=
  match cs with
  | [] => (fails, l)
  | value :: cs' =>
      match on_chunk value l with
      | (true, l') => (true, l')
      | (false, l') => read_loop cs' fails l'
      end
  end.

End ReadLoop.

Arguments for_lines {Locals} on_line lines l.
Arguments on_chunk {Locals} on_line value l.
Arguments read_loop {Locals} on_line cs fails l.

(** A literal of the source file, which is UTF-8 text. *)
Definition text (s : string) : JsString.t :=
  TextDecoder.decode (list_byte_of_string s).

End App.

(** ** The first variant of [App] (lines 80-691) *)

Module V1.

Import JsString App.

(** The [let] variables of [handleSubmit] that the loop assigns, and the
    run.  [assistantMessage] is one object shared by [updatedMessages] and
    by every copy of the message list; the updaters assign to its fields,
    so the list in the state and [updatedMessages] always agree. *)
Record Locals := mkLocals {
  tempResponse : JsString.t;
  sources : JSON.value;
  run : Run
}.

(** [lastMessage.content = tempResponse] under the guard
    [lastMessage && lastMessage.role === 'assistant']. *)
Definition assign_last (f : Message -> Message) (prev : list Message)
  : list Message :=
  update_last (fun m => match role m with
                        | assistant => f m
                        | user => m
                        end) prev.

(** The body of [for (const line of lines)] (lines 260-299). *)
Definition on_line (line : JsString.t) (l : Locals) : Flow * Locals :=
  if negb (truthy (trim line)) || negb (startsWith line (lit "data: "))
  then (Continue, l)
  else
    let data := slice_from line 5 in
    if startsWith data (lit "[SOURCES]") && endsWith data (lit "[/SOURCES]")
    then
      let sourcesJson := slice data 9 (-10) in
      match JSON.parse sourcesJson with
      | Some v => (Continue, mkLocals (tempResponse l) v (run l))
      | None => (Continue, l)
      end
    else if JsString.eqb data (lit "[DONE]") then
      (Break,
       mkLocals (tempResponse l) (sources l)
         (setMessages
            (assign_last (fun m =>
               mkMessage (role m) (tempResponse l) (Some (sources l))))
            (run l)))
    else if negb (includes data (lit "[SOURCES]"))
            && negb (includes data (lit "[ERROR]"))
            && negb (JsString.eqb data (lit "[DONE]"))
    then
      let temp := tempResponse l ++ data in
      (Continue,
       mkLocals temp (sources l)
         (setMessages (assign_last (set_content temp)) (run l)))
    else (Continue, l).

(** The [catch] of [handleSubmit]: [rejected] holds the detail of an
    axios error, and is [None] for any other exception. *)
Definition on_catch (rejected : option JsString.t) (r : Run) : Run :=
  match rejected with
  | Some detail =>
      setError (Some (text "聊天請求失敗: " ++ detail)) r
  | None => setError (Some (text "發送訊息時發生未知錯誤")) r
  end.

(** Lines 302-318: the conversation is saved when the chat id that
    [handleSubmit] closed over is set. *)
Definition update_chat (s : State) (env : Env) (r : Run) : Run :=
  match currentChatId s with
  | Some cid =>
      if truthy cid then
        let updatedMessages := messages (ui r) in
        let title :=
          match updatedMessages with
          | m :: _ => slice (content m) 0 30 ++ lit "..."
          | [] => lit "undefined..."
          end in
        let r := send (PutHistory cid updatedMessages title) r in
        match put_history env with
        | Resolved _ => fetchChatHistories env r
        | Rejected _ => setError (Some (text "對話更新失敗")) r
        end
      else r
  | None => r
  end.

(** [handleSubmit] (lines 192-329) on the state [s] of the render that
    created it. *)
Definition handleSubmit (s : State) (env : Env) : Run :=
  if negb (truthy (trim (input s))) then start s
  else
    let currentInput := trim (input s) in
    let r := setError None (setIsLoading true (setInput [] (start s))) in
    let newMessage := mkMessage user currentInput None in
    let finally := setIsLoading false in
    let created :=
      if negb (truthy_opt (currentChatId s)) then
        let r := send (PostHistory [newMessage]
                         (slice currentInput 0 30 ++ lit "...")) r in
        match post_history env with
        | Resolved cid => inl (setCurrentChatId (Some cid) r)
        | Rejected detail => inr (detail, r)
        end
      else inl r in
    match created with
    | inr (detail, r) => finally (on_catch (Some detail) r)
    | inl r =>
        let r := send (PostChatStream currentInput (messages s)) r in
        match fetch_chat env with
        | None => finally (on_catch None r)
        | Some chatResponse =>
            if negb (ok chatResponse) then finally (on_catch None r)
            else
              let assistantMessage :=
                mkMessage assistant [] (Some (JSON.Array [])) in
              let updatedMessages :=
                messages s ++ [newMessage; assistantMessage] in
              let r := setMessages (fun _ => updatedMessages) r in
              match body chatResponse with
              | None => finally (on_catch None r)
              | Some b =>
                  match read_loop on_line (chunks b) (read_fails b)
                          (mkLocals [] (JSON.Array []) r) with
                  | (true, l) => finally (on_catch None (run l))
                  | (false, l) => finally (update_chat s env (run l))
                  end
              end
        end
    end.

End V1.

(** ** The second variant of [App] (lines 783-1570) *)

Module V2.

Import JsString App.

Record Locals := mkLocals {
  tempResponse : JsString.t;
  sources : JSON.value;
  run : Run
}.

(** The body of [for (const line of lines)] (lines 931-973).
    [JSON.parse] is not guarded here: a syntax error leaves the loop. *)
Definition on_line (line : JsString.t) (l : Locals) : Flow * Locals :=
  if negb (truthy (trim line)) || negb (startsWith line (lit "data: "))
  then (Continue, l)
  else
    let data := slice_from line 6 in
    if startsWith data (lit "[SOURCES]") && endsWith data (lit "[/SOURCES]")
    then
      let sourcesData := slice data 9 (-10) in
      match JSON.parse sourcesData with
      | Some v => (Continue, mkLocals (tempResponse l) v (run l))
      | None => (Throw, l)
      end
    else if startsWith data (lit "[ERROR]") then
      let errorMsg :=
        replace (replace data (lit "[ERROR]") []) (lit "[/ERROR]") [] in
      (Break,
       mkLocals (tempResponse l) (sources l)
         (setError (Some (text "聊天請求失敗: " ++ errorMsg)) (run l)))
    else if JsString.eqb data (lit "[DONE]") then
      (Break,
       mkLocals (tempResponse l) (sources l)
         (setMessages
            (update_last (fun _ =>
               mkMessage assistant (tempResponse l) (Some (sources l))))
            (run l)))
    else
      let temp := tempResponse l ++ data in
      (Continue,
       mkLocals temp (sources l)
         (setMessages (update_last (set_content temp)) (run l))).

(** [saveOrUpdateChatHistory] (lines 1311-1333); [s] is the state of the
    render that created it.  It catches its own failures. *)
Definition saveOrUpdateChatHistory (s : State) (env : Env)
    (msgs : list Message) (title : JsString.t) (r : Run) : Run :=
  let failed := setError (Some (text "保存對話歷史失敗")) in
  match currentChatId s with
  | Some cid =>
      if truthy cid then
        let r := send (PutHistory cid msgs title) r in
        match put_history env with
        | Resolved _ => fetchChatHistories env r
        | Rejected _ => failed r
        end
      else
        let r := send (PostHistory msgs title) r in
        match post_history env with
        | Resolved cid' => fetchChatHistories env (setCurrentChatId (Some cid') r)
        | Rejected _ => failed r
        end
  | None =>
      let r := send (PostHistory msgs title) r in
      match post_history env with
      | Resolved cid' => fetchChatHistories env (setCurrentChatId (Some cid') r)
      | Rejected _ => failed r
      end
  end.

Definition on_catch (r : Run) : Run :=
  setError (Some (text "聊天請求失敗，請稍後再試")) r.

(** [handleSubmit] (lines 867-998). *)
Definition handleSubmit (s : State) (env : Env) : Run :=
  if negb (truthy (trim (input s))) || isLoading s then start s
  else
    let userMessage := mkMessage user (trim (input s)) None in
    let finally := setIsLoading false in
    let r := setError None (setIsLoading true (start s)) in
    let updatedMessages := messages s ++ [userMessage] in
    let r := setMessages (fun _ => updatedMessages) r in
    let r := setInput [] r in
    let assistantMessage := mkMessage assistant [] None in
    let r := setMessages (fun _ => updatedMessages ++ [assistantMessage]) r in
    let r :=
      send (PostChatStream (content userMessage)
              (map (fun msg => mkMessage (role msg) (content msg) None)
                 updatedMessages)) r in
    match fetch_chat env with
    | None => finally (on_catch r)
    | Some response =>
        if negb (ok response) then finally (on_catch r)
        else
          match body response with
          | None => finally (on_catch r)
          | Some b =>
              match read_loop on_line (chunks b) (read_fails b)
                      (mkLocals [] (JSON.Array []) r) with
              | (true, l) => finally (on_catch (run l))
              | (false, l) =>
                  let finalMessages :=
                    updatedMessages ++
                    [mkMessage assistant (tempResponse l)
                       (Some (sources l))] in
                  let r :=
                    saveOrUpdateChatHistory s env finalMessages
                      (slice (content userMessage) 0 20 ++ lit "...")
                      (run l) in
                  finally (setMessages (fun _ => finalMessages) r)
              end
          end
    end.

End V2.

(** ** The other handlers of the component

    The handlers beside [handleSubmit] that change the conversation or
    the file list: [startNewChat], [deleteHistory], [loadChatHistory],
    [handleFileUpload], [removeFile], and the helpers they call.  The
    backend is taken to answer with data of the declared types. *)

Module Handlers.

Import JsString App.

(** [status?: 'uploading' | 'success' | 'error'] *)
Inductive Status := uploading | success | errored.

(** [interface FileInfo] of the second variant. *)
Record FileInfo := mkFileInfo {
  name : JsString.t;
  display_name : option JsString.t;
  size : option N;
  lastModified : option N;
  uploadTime : option JsString.t;
  webkitRelativePath : option JsString.t;
  type : option JsString.t;
  status : option Status;
  errorMessage : option JsString.t
}.

(** What the handlers read of a [File] of the browser. *)
Record File := mkFile {
  file_name : JsString.t;
  file_size : N
}.

(** The requests of these handlers; [Chat] wraps the requests of the
    chat handlers. *)
Inductive Call :=
| Chat (q : Request)
| GetHistory (chatId : JsString.t)
| DeleteHistory (chatId : JsString.t)
| PostUpload (file : File)
| GetFiles
| DeleteFile (name : JsString.t)
| GetStats.

(** The component with the cells the chat handlers do not touch:
    [files], [vectorStoreStats] and [document.title]. *)
Record Page := mkPage {
  state : State;
  files : list FileInfo;
  vectorStoreStats : JSON.value;
  document_title : JsString.t
}.

Record Session := mkSession {
  page : Page;
  calls : list Call
}.

(** The answers of the backend, and the clock: [post_upload i] answers
    the upload of the [i]-th file of a list, [now i] is [Date.now()] when
    that file is taken up. *)
Record Backend := mkBackend {
  chat : Env;
  get_history : Axios (option (list Message));
  delete_history : Axios unit;
  post_upload : nat -> Axios unit;
  get_files : Axios (list FileInfo);
  delete_file : Axios unit;
  get_stats : Axios JSON.value;
  now : nat -> N
}.

(** A step of the chat handlers, run on the page. *)
Definition lift (f : Run -> Run) (x : Session) : Session :=
  let p := page x in
  let r := f (start (state p)) in
  mkSession
    (mkPage (ui r) (files p) (vectorStoreStats p) (document_title p))
    (calls x ++ map Chat (requests r)).

Definition setFiles (f : list FileInfo -> list FileInfo) (x : Session)
  : Session :=
  let p := page x in
  mkSession
    (mkPage (state p) (f (files p)) (vectorStoreStats p) (document_title p))
    (calls x).

Definition setVectorStoreStats (v : JSON.value) (x : Session) : Session :=
  let p := page x in
  mkSession (mkPage (state p) (files p) v (document_title p)) (calls x).

Definition set_title (v : JsString.t) (x : Session) : Session :=
  let p := page x in
  mkSession (mkPage (state p) (files p) (vectorStoreStats p) v) (calls x).

Definition call (c : Call) (x : Session) : Session :=
  mkSession (page x) (calls x ++ [c]).

(** [currentChatId === chatId] *)
Definition same_chat (current : option JsString.t) (chatId : JsString.t)
  : bool :=
  match current with
  | Some c => JsString.eqb c chatId
  | None => false
  end.

(** [onChange={(e) => setInput(e.target.value)}] *)
Definition typing (value : JsString.t) (s : State) : State :=
  mkState (messages s) value (isLoading s) (error s) (chatHistories s)
    (currentChatId s).


(** [startNewChat] of the second variant (lines 1336-1342). *)
Definition V2_startNewChat (x : Session) : Session :=
  set_title (text "RAG - 新對話")
    (lift (setError None)
       (lift (setInput [])
          (lift (setCurrentChatId None)
             (lift (setMessages (fun _ => [])) x)))).

(** [deleteHistory] (lines 331-343 and 1085-1097, the same text). *)
Definition deleteHistory (chatId : JsString.t) (env : Backend)
    (x : Session) : Session :=
  let s := state (page x) in
  let x := call (DeleteHistory chatId) x in
  match delete_history env with
  | Resolved _ =>
      let x := lift (fetchChatHistories (chat env)) x in
      if same_chat (currentChatId s) chatId
      then lift (setCurrentChatId None) (lift (setMessages (fun _ => [])) x)
      else x
  | Rejected _ => lift (setError (Some (text "刪除對話歷史失敗"))) x
  end.

(** [loadChatHistory] of the second variant (lines 836-865). *)
Definition V2_loadChatHistory (chatId : JsString.t) (env : Backend)
    (x : Session) : Session :=
  let p := page x in
  let s := state p in
  let finally := lift (setIsLoading false) in
  let x := lift (setIsLoading true) x in
  if same_chat (currentChatId s) chatId then finally x
  else
    let x :=
      if truthy_opt (currentChatId s)
         && negb (Nat.eqb (length (messages s)) 0)
      then lift (V2.saveOrUpdateChatHistory s (chat env) (messages s)
                   (replace (document_title p) (lit "RAG - ") [])) x
      else x in
    let x := call (GetHistory chatId) x in
    match get_history env with
    | Rejected _ =>
        finally (lift (setError (Some (text "載入對話歷史失敗"))) x)
    | Resolved data =>
        let x :=
          lift (setMessages (fun _ => match data with
                                      | Some ms => ms
                                      | None => []
                                      end)) x in
        let x := lift (setCurrentChatId (Some chatId)) x in
        let x :=
          match find (fun chat => JsString.eqb (id chat) chatId)
                  (chatHistories s) with
          | Some selectedChat =>
              set_title (lit "RAG - " ++ title selectedChat) x
          | None => x
          end in
        finally x
    end.

(** [fetchUploadedFiles] (lines 813-821). *)
Definition fetchUploadedFiles (env : Backend) (x : Session) : Session :=
  let x := call GetFiles x in
  match get_files env with
  | Resolved data => setFiles (fun _ => data) x
  | Rejected _ => x
  end.

(** [loadVectorStoreStats] (lines 1296-1303). *)
Definition loadVectorStoreStats (env : Backend) (x : Session) : Session :=
  let x := call GetStats x in
  match get_stats env with
  | Resolved data => setVectorStoreStats data x
  | Rejected _ => x
  end.

(** A whole number below 10^21 as a string. *)
Definition decimal (n : N) : JsString.t :=
  lit (NilZero.string_of_uint (N.to_uint n)).

Definition is_errored (f : FileInfo) : bool :=
  match status f with
  | Some errored => true
  | _ => false
  end.

(** [{...f, status: 'error', errorMessage: '上傳失敗'}] *)
Definition mark_failed (f : FileInfo) : FileInfo :=
  mkFileInfo (name f) (display_name f) (size f) (lastModified f)
    (uploadTime f) (webkitRelativePath f) (type f) (Some errored)
    (Some (text "上傳失敗")).

(** The [for] loop of [handleFileUpload] (lines 1008-1052) from its
    [i]-th turn on; the boolean is [uploadSuccess]. *)
Fixpoint upload_loop (env : Backend) (uploadedFiles : list File) (i : nat)
    (uploadSuccess : bool) (x : Session) : bool * Session :=
  match uploadedFiles with
  | [] => (uploadSuccess, x)
  | file :: rest =>
      let tempFileId := decimal (now env i) ++ lit "_" ++ decimal (N.of_nat i) in
      let tempFile :=
        mkFileInfo tempFileId (Some (file_name file)) (Some (file_size file))
          None None None None (Some uploading) None in
      let x := setFiles (fun prev => prev ++ [tempFile]) x in
      let x := call (PostUpload file) x in
      match post_upload env i with
      | Resolved _ =>
          upload_loop env rest (S i) true
            (setFiles
               (filter (fun f => negb (JsString.eqb (name f) tempFileId))) x)
      | Rejected _ =>
          upload_loop env rest (S i) uploadSuccess
            (lift
               (setError
                  (Some (text "文件 " ++ file_name file ++ text " 上傳失敗")))
               (setFiles
                  (map (fun f =>
                          if JsString.eqb (name f) tempFileId
                          then mark_failed f else f)) x))
      end
  end.

(** [handleFileUpload] (lines 1000-1065); [None] is the [null] of
    [e.target.files]. *)
Definition handleFileUpload (uploadedFiles : option (list File))
    (env : Backend) (x : Session) : Session :=
  match uploadedFiles with
  | None => x
  | Some fs =>
      let files_then := files (page x) in
      let x := lift (setIsLoading true) x in
      let x := lift (setError (Some (text "正在處理文件..."))) x in
      let '(uploadSuccess, x) := upload_loop env fs 0 false x in
      let x := if uploadSuccess then fetchUploadedFiles env x else x in
      let x := lift (setIsLoading false) x in
      if negb (existsb is_errored files_then)
      then lift (setError None) x
      else x
  end.

(** [prev.filter((_, i) => i !== index)] *)
Fixpoint filter_index (keep : nat -> bool) (i : nat) (l : list FileInfo)
  : list FileInfo :=
  match l with
  | [] => []
  | f :: l' =>
      if keep i then f :: filter_index keep (S i) l'
      else filter_index keep (S i) l'
  end.

(** [removeFile] (lines 1067-1082).  Beyond the end of the list
    [files[index]] is [undefined], and reading its name throws inside the
    [try]. *)
Definition removeFile (index : nat) (env : Backend) (x : Session)
  : Session :=
  match nth_error (files (page x)) index with
  | None => lift (setError (Some (text "刪除檔案時發生未知錯誤"))) x
  | Some fileToRemove =>
      let x := call (DeleteFile (name fileToRemove)) x in
      match delete_file env with
      | Resolved _ =>
          loadVectorStoreStats env
            (setFiles (filter_index (fun i => negb (Nat.eqb i index)) 0) x)
      | Rejected detail =>
          lift (setError (Some (text "刪除檔案失敗: " ++ detail))) x
      end
  end.

(** The sources panel under the message list of the first variant (lines
    521-531): the sources it shows, [None] when it renders nothing. *)
Definition V1_sources_panel (messages : list Message)
  : option (list JSON.value) :=
  match last (map Some messages) None with
  | None => None
  | Some lastMessage =>
      match role lastMessage, sources lastMessage with
      | assistant, Some (JSON.Array (source :: rest)) =>
          Some (source :: rest)
      | _, _ => None
      end
  end.

End Handlers.

(** ** Vocabulary of the stream protocol

    A frame is one [data: ]-prefixed line; its payload is what follows the
    six units of the marker. *)

Module Protocol.

Import JsString App.

Definition is_frame (line : JsString.t) : bool :=
  startsWith line (lit "data: ").

Definition payload (line : JsString.t) : JsString.t := slice_from line 6.

Definition is_sources (data : JsString.t) : bool :=
  startsWith data (lit "[SOURCES]") && endsWith data (lit "[/SOURCES]").

Definition is_error (data : JsString.t) : bool :=
  startsWith data (lit "[ERROR]").

Definition is_done (data : JsString.t) : bool :=
  JsString.eqb data (lit "[DONE]").

(** The lines of a chunk, as the loop sees them. *)
Definition lines_of (value : list byte) : list JsString.t :=
  split nl (TextDecoder.decode value).

(** The message at [length - 1]. *)
Definition last_message (ms : list Message) : option Message :=
  last (map Some ms) None.

(** The content of the assistant message in each value the message list
    took, for those values that end with an assistant message. *)
Definition assistant_contents (rs : list (list Message))
  : list JsString.t :=
  flat_map (fun ms =>
    match last_message ms with
    | Some m => match role m with
                | assistant => [content m]
                | user => []
                end
    | None => []
    end) rs.

Definition is_prefix (a b : JsString.t) : Prop := exists c, b = a ++ c.




End Protocol.

(** ** Phases and invariants of a run *)

Module Phases.

Import JsString App Protocol.

(** First variant: while the loop runs the message list is the one
    [handleSubmit] set, the content of the assistant message is
    [tempResponse] and its sources are the empty array it was created
    with. *)
Definition V1_tracks (base : list Message) (l : V1.Locals) : Prop :=
  messages (ui (V1.run l))
  = base ++ [mkMessage assistant (V1.tempResponse l) (Some (JSON.Array []))].

(** First variant: a value of the message list that ends with the
    assistant message, its sources the empty array. *)
Definition V1_empty_sources (ms : list Message) : Prop :=
  exists c,
    last_message ms = Some (mkMessage assistant c (Some (JSON.Array []))).

(** First variant: what holds of the locals and the run at every turn of
    the loop. *)
Definition V1_invariant (base : list Message) (l : V1.Locals) : Prop :=
  V1_tracks base l
  /\ Forall V1_empty_sources (renders (V1.run l))
  /\ StronglySorted is_prefix
       (assistant_contents (renders (V1.run l)) ++ [V1.tempResponse l]).

(** First variant: what follows the loop. *)
Definition V1_closing (s : State) (env : Env) (res : bool * V1.Locals)
  : Run :=
  match res with
  | (true, l) => setIsLoading false (V1.on_catch None (V1.run l))
  | (false, l) => setIsLoading false (V1.update_chat s env (V1.run l))
  end.

(** Second variant: the run when the first [reader.read()] is awaited. *)
Definition V2_opening (s : State) : Run :=
  let userMessage := mkMessage user (trim (input s)) None in
  let updatedMessages := messages s ++ [userMessage] in
  send (PostChatStream (content userMessage)
          (map (fun msg => mkMessage (role msg) (content msg) None)
             updatedMessages))
    (setMessages (fun _ => updatedMessages ++ [mkMessage assistant [] None])
       (setInput []
          (setMessages (fun _ => updatedMessages)
             (setError None (setIsLoading true (start s)))))).

(** Second variant: what follows the loop, which either threw or saw the
    end of the stream. *)
Definition V2_closing (s : State) (env : Env) (res : bool * V2.Locals)
  : Run :=
  let userMessage := mkMessage user (trim (input s)) None in
  let updatedMessages := messages s ++ [userMessage] in
  match res with
  | (true, l) => setIsLoading false (V2.on_catch (V2.run l))
  | (false, l) =>
      let finalMessages :=
        updatedMessages
        ++ [mkMessage assistant (V2.tempResponse l) (Some (V2.sources l))] in
      setIsLoading false
        (setMessages (fun _ => finalMessages)
           (V2.saveOrUpdateChatHistory s env finalMessages
              (slice (content userMessage) 0 20 ++ lit "...")
              (V2.run l)))
  end.







(** A line that is passed over or carries a content fragment. *)
Definition is_plain (line : JsString.t) : bool :=
  negb (is_frame line)
  || negb (is_sources (payload line) || is_error (payload line)
           || is_done (payload line)).

(** The fragments of the frames among some lines, in order. *)
Definition fragments (lines : list JsString.t) : JsString.t :=
  flat_map (fun line => if is_frame line then payload line else []) lines.


End Phases.

(** ** Concrete streams *)

Module Examples.

Import JsString App.

(** The bytes of one newline-terminated line.  The line is written with
    single quotes where the stream has double quotes. *)
Definition frame (s : string) : list byte :=
  map (fun b => match b with x27 => x22 | _ => b end)
    (list_byte_of_string s) ++ [x0a].


(** A component with the question typed in and no conversation yet. *)
Definition asking : State := mkState [] (lit "hi") false None [] None.

(** A backend that answers every request, the chat with these chunks. *)
Definition serving (cs : list (list byte)) : Env :=
  mkEnv (Resolved (lit "c1")) (Resolved tt) (Resolved [])
    (Some (mkResponse true (Some (mkBody cs false)))).

Definition question : Message := mkMessage user (lit "hi") None.

(** The stream of the specification's example. *)
Definition hello_stream : list byte :=
  frame "data: Hello"
  ++ frame "data: [SOURCES][{'content':'a','metadata':{'source':'doc.pdf'}}][/SOURCES]"
  ++ frame "data: [DONE]".

Definition doc_pdf : JSON.value :=
  JSON.Array
    [JSON.Object
       [(lit "content", JSON.Str (lit "a"));
        (lit "metadata",
         JSON.Object [(lit "source", JSON.Str (lit "doc.pdf"))])]].

Definition malformed_stream : list byte :=
  frame "data: [SOURCES]not-json[/SOURCES]" ++ frame "data: [DONE]".

(** A form that holds only spaces, in a conversation under way. *)
Definition blank_form : State :=
  mkState [question] (lit "   ") false None [] (Some (lit "c1")).

(** A frame that arrives after [[DONE]], in a chunk of its own. *)
Definition done_then_more : list (list byte) :=
  [frame "data: a" ++ frame "data: [DONE]"; frame "data: b"].


Definition error_stream : list (list byte) :=
  [frame "data: [ERROR]boom[/ERROR]"].










(** A second chunk that starts with the byte order mark. *)
Definition mark_cut : list (list byte) :=
  [frame "data: a"; [xef; xbb; xbf] ++ frame "data: b"].

Definition mark_whole : list (list byte) :=
  [frame "data: a" ++ [xef; xbb; xbf] ++ frame "data: b"].


(** The locals of the first variant somewhere in the loop. *)
Definition so_far : V1.Locals :=
  V1.mkLocals (lit "So far") (JSON.Array []) (start asking).


End Examples.

(** ** Vocabulary for the requests and the file list *)

Module Vocabulary.

Import JsString App Protocol Handlers.

(** Neither the first nor the last unit is white space. *)
Definition ends_clean (q : JsString.t) : bool :=
  match q with
  | c :: _ => negb (isWhiteSpace c)
  | [] => true
  end
  && match rev q with
     | c :: _ => negb (isWhiteSpace c)
     | [] => true
     end.

(** A chat request carries the trimmed input as its query. *)
Definition asks_trimmed (s : State) (q : Request) : Prop :=
  match q with
  | PostChatStream query _ =>
      query = trim (input s) /\ truthy query = true
      /\ ends_clean query = true
  | _ => True
  end.

(** A history request whose title has at most [limit] units of text
    before its final three dots. *)
Definition short_title (limit : nat) (q : Request) : Prop :=
  match q with
  | PostHistory _ t | PutHistory _ _ t =>
      (length t <= limit + 3)%nat /\ endsWith t (lit "...") = true
  | _ => True
  end.

(** A history request that carries exactly these messages. *)
Definition saves (msgs : list Message) (q : Request) : Prop :=
  match q with
  | PostHistory m _ | PutHistory _ m _ => m = msgs
  | _ => False
  end.

Definition is_uploading (f : FileInfo) : bool :=
  match status f with
  | Some uploading => true
  | _ => false
  end.

(** The upload of the [i]-th picked file succeeds. *)
Definition uploaded (env : Backend) (i : nat) : bool :=
  match post_upload env i with
  | Resolved _ => true
  | Rejected _ => false
  end.

(** One of the [n] uploads from the [i]-th on succeeds. *)
Definition any_uploaded (env : Backend) (i n : nat) : bool :=
  existsb (uploaded env) (seq i n).

(** The history request that [saveOrUpdateChatHistory] sends. *)
Definition save_request (s : State) (msgs : list Message)
    (title : JsString.t) : Request :=
  match currentChatId s with
  | Some cid =>
      if truthy cid then PutHistory cid msgs title
      else PostHistory msgs title
  | None => PostHistory msgs title
  end.

(** A chat request carries this history. *)
Definition sends_history (h : list Message) (q : Request) : Prop :=
  match q with
  | PostChatStream _ history => history = h
  | _ => True
  end.

Definition is_chat (q : Request) : bool :=
  match q with
  | PostChatStream _ _ => true
  | _ => false
  end.

(** The user message that [handleSubmit] builds from the input. *)
Definition asked (s : State) : Message :=
  mkMessage user (trim (input s)) None.

End Vocabulary.

(** ** More concrete inputs *)

Module Samples.

Import JsString App Protocol Handlers Examples.

(** A conversation under way, with its chat id and a question typed. *)
Definition mid_chat : State :=
  mkState [question; mkMessage assistant (lit "hello") (Some doc_pdf)]
    (lit " next ") false (Some (lit "old error")) [] (Some (lit "c1")).

Definition backend : Backend :=
  mkBackend (serving [hello_stream])
    (Resolved (Some [question]))
    (Resolved tt)
    (fun i => if Nat.eqb i 0 then Rejected (lit "boom") else Resolved tt)
    (Resolved [])
    (Resolved tt)
    (Resolved JSON.Null)
    (fun i => 1700000000000 + N.of_nat i).

(** A backend that accepts every upload. *)
Definition accepting : Backend :=
  mkBackend (serving [hello_stream]) (Resolved None) (Resolved tt)
    (fun _ => Resolved tt)
    (Resolved [mkFileInfo (lit "a.pdf") None (Some 10) None None None None
                 (Some success) None])
    (Resolved tt) (Resolved JSON.Null)
    (fun i => 1700000000000 + N.of_nat i).

(** A backend that cannot be reached for the history of a chat. *)
Definition offline : Backend :=
  mkBackend (serving []) (Rejected (lit "Network Error")) (Resolved tt)
    (fun _ => Rejected (lit "Network Error"))
    (Rejected (lit "Network Error")) (Rejected (lit "Network Error"))
    (Rejected (lit "Network Error")) (fun _ => 1700000000000).

Definition listed (n : JsString.t) (st : option Status) : FileInfo :=
  mkFileInfo n None None None None None None st None.

Definition page_with (fs : list FileInfo) : Session :=
  mkSession (mkPage mid_chat fs JSON.Null (lit "RAG - first")) [].

Definition picked : list File :=
  [mkFile (lit "a.pdf") 10; mkFile (lit "b.txt") 20].

End Samples.

(** * Properties *)

(** ** Facts about the string operations *)

Module JsStringFacts.

Import JsString.

Lemma eqb_eq (a b : t) : eqb a b = true <-> a = b.
Proof.
  revert b; induction a as [|c a IH]; intros [|d b]; simpl;
    try (split; [discriminate | congruence]); try tauto.
  rewrite andb_true_iff, N.eqb_eq, IH.
  split; [intros [-> ->]; reflexivity | intros E; inversion E; auto].
Qed.

Lemma eqb_refl (a : t) : eqb a a = true.
Proof. apply eqb_eq; reflexivity. Qed.

Lemma startsWith_spec (s p : t) :
  startsWith s p = true <-> exists r, s = p ++ r.
Proof.
  revert s; induction p as [|c p IH]; intros s; simpl.
  - split; [exists s; reflexivity | reflexivity].
  - destruct s as [|d s].
    + split; [discriminate | intros [r E]; discriminate].
    + rewrite andb_true_iff, N.eqb_eq, IH. split.
      * intros [-> [r ->]]. exists r; reflexivity.
      * intros [r E]. inversion E; subst. split; [reflexivity | eauto].
Qed.

Lemma startsWith_app (p r : t) : startsWith (p ++ r) p = true.
Proof. apply startsWith_spec; eauto. Qed.

Lemma endsWith_spec (s p : t) :
  endsWith s p = true <-> exists r, s = r ++ p.
Proof.
  unfold endsWith. rewrite startsWith_spec. split.
  - intros [r E]. exists (rev r).
    rewrite <- (rev_involutive s), E, rev_app_distr, rev_involutive.
    reflexivity.
  - intros [r ->]. exists (rev r). apply rev_app_distr.
Qed.

Lemma includes_cons (c : N) (s p : t) :
  includes s p = true -> includes (c :: s) p = true.
Proof. intros H. simpl. rewrite H. apply orb_true_r. Qed.


(** [slice] from a non-negative index to the end drops a prefix. *)
Lemma slice_from_skipn (s : t) (k : nat) :
  slice_from s (Z.of_nat k) = skipn k s.
Proof.
  unfold slice_from, slice, clamp.
  destruct (Z.ltb_spec (Z.of_nat k) 0); [lia |].
  destruct (Z.ltb_spec (Z.of_nat (length s)) 0); [lia |].
  rewrite Z.min_id.
  destruct (Nat.le_gt_cases k (length s)) as [Hk | Hk].
  - rewrite Z.min_l by lia. rewrite Nat2Z.id.
    apply firstn_all2. rewrite length_skipn. lia.
  - rewrite Z.min_r by lia. rewrite Nat2Z.id, Z.sub_diag.
    rewrite (skipn_all2 (n := k)) by lia. reflexivity.
Qed.

Lemma slice_from_app (p r : t) :
  slice_from (p ++ r) (Z.of_nat (length p)) = r.
Proof.
  rewrite slice_from_skipn, skipn_app, skipn_all, Nat.sub_diag.
  reflexivity.
Qed.

(** [slice(n, -m)] strips a prefix of [n] and a suffix of [m] units. *)
Lemma slice_strip (p x q : t) :
  (0 < length q)%nat ->
  slice (p ++ x ++ q) (Z.of_nat (length p)) (- Z.of_nat (length q)) = x.
Proof.
  intros Hq. unfold slice, clamp. rewrite !length_app.
  destruct (Z.ltb_spec (Z.of_nat (length p)) 0); [lia |].
  destruct (Z.ltb_spec (- Z.of_nat (length q)) 0); [| lia].
  rewrite Z.min_l, Z.max_l by lia. rewrite Nat2Z.id.
  rewrite skipn_app, skipn_all, Nat.sub_diag. simpl.
  replace (Z.to_nat _) with (length x) by lia.
  rewrite firstn_app, firstn_all, Nat.sub_diag. simpl.
  apply app_nil_r.
Qed.

Lemma trimStart_blank (s : t) :
  Forall (fun c => isWhiteSpace c = true) s -> trimStart s = [].
Proof.
  induction 1 as [|c s Hc _ IH]; simpl; [reflexivity |].
  rewrite Hc. exact IH.
Qed.

(** A string of white space only trims to the empty string. *)
Lemma trim_blank (s : t) :
  Forall (fun c => isWhiteSpace c = true) s -> trim s = [].
Proof.
  intros H. unfold trim, trimEnd. rewrite (trimStart_blank s H).
  reflexivity.
Qed.

Lemma trimStart_keeps (c : N) (s : t) :
  In c s -> isWhiteSpace c = false -> trimStart s <> [].
Proof.
  induction s as [|d s IH]; simpl; [tauto |].
  intros [-> | Hin] Hc.
  - rewrite Hc. discriminate.
  - destruct (isWhiteSpace d); [auto | discriminate].
Qed.

(** A string that holds a unit other than white space does not trim to
    the empty string. *)
Lemma trim_truthy (c : N) (s : t) :
  In c s -> isWhiteSpace c = false -> truthy (trim s) = true.
Proof.
  intros Hin Hc. unfold trim, trimEnd.
  assert (trimStart s <> []) as Hs by (eapply trimStart_keeps; eauto).
  assert (exists d, In d (trimStart s) /\ isWhiteSpace d = false)
    as [d [Hd Hdw]].
  { clear Hin Hc. induction s as [|e s IH]; simpl in *; [tauto |].
    destruct (isWhiteSpace e) eqn:He; [auto |].
    exists e. split; [left; reflexivity | exact He]. }
  assert (trimStart (rev (trimStart s)) <> []) as Hr.
  { apply (trimStart_keeps d); [| exact Hdw].
    rewrite <- In_rev. exact Hd. }
  destruct (trimStart (rev (trimStart s))) as [|x xs] eqn:E; [tauto |].
  simpl. destruct (rev xs); reflexivity.
Qed.

(** A [data: ] line is never blank. *)
Lemma data_line_truthy (line : t) :
  startsWith line (lit "data: ") = true -> truthy (trim line) = true.
Proof.
  intros H. apply startsWith_spec in H as [r ->].
  apply (trim_truthy 100); [left; reflexivity | reflexivity].
Qed.


Lemma trim_nil : trim [] = [].
Proof. reflexivity. Qed.

End JsStringFacts.

(** ** Facts about the JSON parser *)

Module JSONFacts.

Import JsString JSON.

Lemma skip_ws_length (s : t) : (length (skip_ws s) <= length s)%nat.
Proof.
  induction s as [|c s IH]; simpl; [lia |].
  destruct (isJsonSpace c); simpl; lia.
Qed.

Lemma span_digits_length (s d r : t) :
  span_digits s = (d, r) -> length s = (length d + length r)%nat.
Proof.
  revert d r; induction s as [|c s IH]; intros d r; simpl.
  - intros E. injection E as <- <-. reflexivity.
  - destruct (isDigit c).
    + destruct (span_digits s) as [d' r'] eqn:E'. intros E.
      injection E as <- <-. simpl. rewrite (IH d' r' eq_refl). reflexivity.
    + intros E. injection E as <- <-. reflexivity.
Qed.

Lemma parse_chars_length (s cs r : t) :
  parse_chars s = Some (cs, r) -> (length r < length s)%nat.
Proof.
  remember (length s) as n eqn:Hn. revert s cs r Hn.
  induction n as [n IH] using lt_wf_ind. intros s cs r Hn.
  destruct s as [|c s]; [discriminate |]. cbn [parse_chars].
  destruct (c =? 0x22).
  { intros E. injection E as _ <-. simpl in *. lia. }
  destruct (c <? 0x20); [discriminate |].
  destruct (c =? 0x5C).
  - destruct s as [|e s1]; [discriminate |].
    destruct (e =? 0x75).
    + destruct s1 as [|h1 [|h2 [|h3 [|h4 s2]]]]; try discriminate.
      destruct (hex4 h1 h2 h3 h4); [| discriminate].
      destruct (parse_chars s2) as [[cs' r']|] eqn:E'; [| discriminate].
      intros E. injection E as _ <-.
      apply (IH (length s2)) in E'; simpl in *; lia.
    + destruct (unescape e); [| discriminate].
      destruct (parse_chars s1) as [[cs' r']|] eqn:E'; [| discriminate].
      intros E. injection E as _ <-.
      apply (IH (length s1)) in E'; simpl in *; lia.
  - destruct (parse_chars s) as [[cs' r']|] eqn:E'; [| discriminate].
    intros E. injection E as _ <-.
    apply (IH (length s)) in E'; simpl in *; lia.
Qed.

Lemma parse_number_length (s n r : t) :
  parse_number s = Some (n, r) -> (length r < length s)%nat.
Proof.
  unfold parse_number.
  set (p := match s with
            | [] => ([], s)
            | c :: r0 => if c =? 0x2D then ([c], r0) else ([], s)
            end).
  assert (length (snd p) <= length s)%nat as Hp.
  { unfold p. destruct s as [|c r0]; simpl; [lia |].
    destruct (c =? 0x2D); simpl; lia. }
  destruct p as [sign s1]. simpl in Hp.
  destruct (span_digits s1) as [int s2] eqn:E1.
  apply span_digits_length in E1.
  destruct int as [|d ds]; [discriminate |]. simpl in E1.
  destruct ((d =? 0x30) && negb (JsString.eqb ds [])); [discriminate |].
  set (frac := match s2 with
               | [] => Some ([], s2)
               | c :: r0 =>
                   if c =? 0x2E
                   then let '(fd, r') := span_digits r0 in
                        match fd with [] => None | _ :: _ => Some (c :: fd, r') end
                   else Some ([], s2)
               end).
  assert (forall fr s3, frac = Some (fr, s3) -> length s3 <= length s2)%nat
    as Hfrac.
  { unfold frac. intros fr s3. destruct s2 as [|c r0].
    - intros E. injection E as _ <-. lia.
    - destruct (c =? 0x2E).
      + destruct (span_digits r0) as [fd r'] eqn:E2.
        apply span_digits_length in E2.
        destruct fd; [discriminate |]. intros E. injection E as _ <-.
        simpl in *. lia.
      + intros E. injection E as _ <-. lia. }
  destruct frac as [[fr s3]|]; [| discriminate].
  specialize (Hfrac fr s3 eq_refl).
  set (exp := match s3 with
              | [] => Some ([], s3)
              | c :: r0 => _
              end).
  assert (forall ex s4, exp = Some (ex, s4) -> length s4 <= length s3)%nat
    as Hexp.
  { unfold exp. intros ex s4. destruct s3 as [|c r0].
    - intros E. injection E as _ <-. lia.
    - destruct ((c =? 0x65) || (c =? 0x45)).
      + set (q := match r0 with
                  | [] => ([], r0)
                  | g :: r' =>
                      if (g =? 0x2B) || (g =? 0x2D) then ([g], r')
                      else ([], r0)
                  end).
        assert (length (snd q) <= length r0)%nat as Hq.
        { unfold q. destruct r0 as [|g r']; simpl; [lia |].
          destruct ((g =? 0x2B) || (g =? 0x2D)); simpl; lia. }
        destruct q as [sg r1]. simpl in Hq.
        destruct (span_digits r1) as [ed r2] eqn:E3.
        apply span_digits_length in E3.
        destruct ed; [discriminate |]. intros E. injection E as _ <-.
        simpl in *. lia.
      + intros E. injection E as _ <-. lia. }
  destruct exp as [[ex s4]|]; [| discriminate].
  specialize (Hexp ex s4 eq_refl).
  intros E. injection E as _ <-. lia.
Qed.

(** A value, an element list or a member list that parses consumes at
    least one unit. *)
Lemma parse_value_length (fuel : nat) :
  (forall s v r, parse_value fuel s = Some (v, r) ->
                 (length r < length s)%nat)
  /\ (forall s acc v r, parse_elements fuel s acc = Some (v, r) ->
                         (length r < length s)%nat)
  /\ (forall s acc v r, parse_members fuel s acc = Some (v, r) ->
                         (length r < length s)%nat).
Proof.
  induction fuel as [|f (IHv & IHe & IHm)];
    [repeat split; intros; discriminate |].
  split; [| split].
  - intros s v r. cbn [parse_value].
    pose proof (skip_ws_length s) as Hs.
    destruct (skip_ws s) as [|c s1]; [discriminate |]. simpl in Hs.
    destruct (c =? 0x7B).
    { pose proof (skip_ws_length s1) as Hs1.
      destruct (skip_ws s1) as [|d s2]; [discriminate |]. simpl in Hs1.
      destruct (d =? 0x7D).
      - intros E. injection E as _ <-. lia.
      - intros E. apply IHm in E. simpl in E. lia. }
    destruct (c =? 0x5B).
    { pose proof (skip_ws_length s1) as Hs1.
      destruct (skip_ws s1) as [|d s2]; [discriminate |]. simpl in Hs1.
      destruct (d =? 0x5D).
      - intros E. injection E as _ <-. lia.
      - intros E. apply IHe in E. simpl in E. lia. }
    destruct (c =? 0x22).
    { destruct (parse_chars s1) as [[cs rest]|] eqn:E1; [| discriminate].
      apply parse_chars_length in E1. intros E. injection E as _ <-. lia. }
    destruct (startsWith (c :: s1) (lit "true")).
    { intros E. injection E as _ <-.
      repeat (destruct s1 as [|? s1]; simpl in *; try lia). }
    destruct (startsWith (c :: s1) (lit "false")).
    { intros E. injection E as _ <-.
      repeat (destruct s1 as [|? s1]; simpl in *; try lia). }
    destruct (startsWith (c :: s1) (lit "null")).
    { intros E. injection E as _ <-.
      repeat (destruct s1 as [|? s1]; simpl in *; try lia). }
    destruct (parse_number (c :: s1)) as [[n rest]|] eqn:E1; [| discriminate].
    apply parse_number_length in E1. intros E. injection E as _ <-.
    simpl in *. lia.
  - intros s acc v r. cbn [parse_elements].
    destruct (parse_value f s) as [[v1 r1]|] eqn:E1; [| discriminate].
    apply IHv in E1. pose proof (skip_ws_length r1) as Hs.
    destruct (skip_ws r1) as [|c r2]; [discriminate |]. simpl in Hs.
    destruct (c =? 0x2C).
    { intros E. apply IHe in E. lia. }
    destruct (c =? 0x5D); [| discriminate].
    intros E. injection E as _ <-. lia.
  - intros s acc v r. cbn [parse_members].
    pose proof (skip_ws_length s) as Hs.
    destruct (skip_ws s) as [|q r0]; [discriminate |]. simpl in Hs.
    destruct (q =? 0x22); [| discriminate].
    destruct (parse_chars r0) as [[k r1]|] eqn:E1; [| discriminate].
    apply parse_chars_length in E1. pose proof (skip_ws_length r1) as Hs1.
    destruct (skip_ws r1) as [|c r2]; [discriminate |]. simpl in Hs1.
    destruct (c =? 0x3A); [| discriminate].
    destruct (parse_value f r2) as [[v1 r3]|] eqn:E2; [| discriminate].
    apply IHv in E2. pose proof (skip_ws_length r3) as Hs3.
    destruct (skip_ws r3) as [|e r4]; [discriminate |]. simpl in Hs3.
    destruct (e =? 0x2C).
    { intros E. apply IHm in E. lia. }
    destruct (e =? 0x7D); [| discriminate].
    intros E. injection E as _ <-. lia.
Qed.

(** Fuel beyond twice the length of the input changes nothing. *)
Lemma parse_value_fuel (fuel : nat) :
  (forall s fuel', (2 * length s + 1 <= fuel)%nat -> (fuel <= fuel')%nat ->
     parse_value fuel' s = parse_value fuel s)
  /\ (forall s acc fuel',
        (2 * length s + 2 <= fuel)%nat -> (fuel <= fuel')%nat ->
        parse_elements fuel' s acc = parse_elements fuel s acc)
  /\ (forall s acc fuel',
        (2 * length s + 2 <= fuel)%nat -> (fuel <= fuel')%nat ->
        parse_members fuel' s acc = parse_members fuel s acc).
Proof.
  induction fuel as [|f (IHv & IHe & IHm)];
    [repeat split; intros; lia |].
  split; [| split].
  - intros s [|f'] Hf Hle; [lia |]. cbn [parse_value].
    pose proof (skip_ws_length s) as Hs.
    destruct (skip_ws s) as [|c s1]; [reflexivity |]. simpl in Hs.
    destruct (c =? 0x7B).
    { pose proof (skip_ws_length s1) as Hs1.
      destruct (skip_ws s1) as [|d s2]; [reflexivity |]. simpl in Hs1.
      destruct (d =? 0x7D); [reflexivity |].
      apply IHm; simpl; lia. }
    destruct (c =? 0x5B); [| reflexivity].
    pose proof (skip_ws_length s1) as Hs1.
    destruct (skip_ws s1) as [|d s2]; [reflexivity |]. simpl in Hs1.
    destruct (d =? 0x5D); [reflexivity |].
    apply IHe; simpl; lia.
  - intros s acc [|f'] Hf Hle; [lia |]. cbn [parse_elements].
    rewrite (IHv s f') by lia.
    destruct (parse_value f s) as [[v1 r1]|] eqn:E1; [| reflexivity].
    apply (proj1 (parse_value_length f)) in E1.
    pose proof (skip_ws_length r1) as Hs.
    destruct (skip_ws r1) as [|c r2]; [reflexivity |]. simpl in Hs.
    destruct (c =? 0x2C); [| reflexivity].
    apply IHe; lia.
  - intros s acc [|f'] Hf Hle; [lia |]. cbn [parse_members].
    pose proof (skip_ws_length s) as Hs.
    destruct (skip_ws s) as [|q r0]; [reflexivity |]. simpl in Hs.
    destruct (q =? 0x22); [| reflexivity].
    destruct (parse_chars r0) as [[k r1]|] eqn:E1; [| reflexivity].
    apply parse_chars_length in E1. pose proof (skip_ws_length r1) as Hs1.
    destruct (skip_ws r1) as [|c r2]; [reflexivity |]. simpl in Hs1.
    destruct (c =? 0x3A); [| reflexivity].
    rewrite (IHv r2 f') by lia.
    destruct (parse_value f r2) as [[v1 r3]|] eqn:E2; [| reflexivity].
    apply (proj1 (parse_value_length f)) in E2.
    pose proof (skip_ws_length r3) as Hs3.
    destruct (skip_ws r3) as [|e r4]; [reflexivity |]. simpl in Hs3.
    destruct (e =? 0x2C); [| reflexivity].
    apply IHm; lia.
Qed.

(** [JSON.parse] does not depend on the bound of its recursion: any
    larger bound gives the same value, or the same failure. *)
Lemma parse_fuel (text : t) (fuel : nat) :
  (2 * length text + 3 <= fuel)%nat ->
  parse_value fuel text = parse_value (2 * length text + 3) text.
Proof.
  intros H. apply (proj1 (parse_value_fuel (2 * length text + 3))); lia.
Qed.

End JSONFacts.

(** ** Facts about the decoder *)

Module TextDecoderFacts.

Import TextDecoder.









Lemma utf16_newline : utf16 0x0A = [0x0A].
Proof. reflexivity. Qed.


(** *** The byte order mark *)









End TextDecoderFacts.

(** ** Facts about the state and the loops *)

Module AppFacts.

Import JsString App Protocol Phases JsStringFacts.

Lemma update_last_snoc (f : Message -> Message) (ms : list Message)
    (m : Message) :
  update_last f (ms ++ [m]) = ms ++ [f m].
Proof.
  induction ms as [|x ms IH]; simpl; [reflexivity |].
  rewrite IH. destruct ms; reflexivity.
Qed.

Lemma last_message_snoc (ms : list Message) (m : Message) :
  last_message (ms ++ [m]) = Some m.
Proof.
  unfold last_message. rewrite map_app. simpl. apply last_last.
Qed.

Lemma last_message_nil : last_message [] = None.
Proof. reflexivity. Qed.


Lemma assistant_contents_snoc (rs : list (list Message))
    (ms : list Message) (c : JsString.t) (so : option JSON.value) :
  assistant_contents (rs ++ [ms ++ [mkMessage assistant c so]])
  = assistant_contents rs ++ [c].
Proof.
  unfold assistant_contents. rewrite flat_map_app. simpl.
  rewrite last_message_snoc. reflexivity.
Qed.

Lemma assistant_contents_one (ms : list Message) (c : JsString.t)
    (so : option JSON.value) :
  assistant_contents [ms ++ [mkMessage assistant c so]] = [c].
Proof. exact (assistant_contents_snoc [] ms c so). Qed.

Lemma snoc_two (ms : list Message) (a b : Message) :
  ms ++ [a; b] = (ms ++ [a]) ++ [b].
Proof. rewrite <- app_assoc. reflexivity. Qed.

Lemma is_prefix_refl (a : JsString.t) : is_prefix a a.
Proof. exists []. symmetry. apply app_nil_r. Qed.

Lemma is_prefix_trans (a b c : JsString.t) :
  is_prefix a b -> is_prefix b c -> is_prefix a c.
Proof.
  intros [x ->] [y ->]. exists (x ++ y). symmetry. apply app_assoc.
Qed.

Lemma is_prefix_app (a d : JsString.t) : is_prefix a (a ++ d).
Proof. exists d. reflexivity. Qed.

(** A chain of prefixes with its last element: every element is a prefix
    of the last one. *)
Lemma chain_snoc (cs : list JsString.t) (a : JsString.t) :
  StronglySorted is_prefix (cs ++ [a])
  <-> StronglySorted is_prefix cs /\ Forall (fun x => is_prefix x a) cs.
Proof.
  induction cs as [|c cs IH]; simpl.
  - split; [intros _; split; constructor | intros _; repeat constructor].
  - split.
    + intros H. apply StronglySorted_inv in H as [H1 H2].
      apply IH in H1 as [H1 H3].
      rewrite Forall_app in H2. destruct H2 as [H2 H4].
      split; constructor; auto.
      apply Forall_inv in H4. exact H4.
    + intros [H1 H2]. apply StronglySorted_inv in H1 as [H1 H3].
      apply Forall_cons_iff in H2 as [H2 H4].
      constructor; [apply IH; auto |].
      rewrite Forall_app. split; [exact H3 | repeat constructor; exact H2].
Qed.

Lemma chain_init (cs : list JsString.t) (a : JsString.t) :
  StronglySorted is_prefix (cs ++ [a]) -> StronglySorted is_prefix cs.
Proof. intros H. apply chain_snoc in H. tauto. Qed.

(** The buffer grew from [a] to [b] and was rendered. *)
Lemma chain_extend (cs : list JsString.t) (a b : JsString.t) :
  StronglySorted is_prefix (cs ++ [a]) -> is_prefix a b ->
  StronglySorted is_prefix ((cs ++ [b]) ++ [b]).
Proof.
  intros H Hab. apply chain_snoc in H as [H1 H2].
  assert (Forall (fun x => is_prefix x b) cs) as H3.
  { eapply Forall_impl; [| exact H2].
    intros x Hx. exact (is_prefix_trans x a b Hx Hab). }
  apply chain_snoc. split.
  - apply chain_snoc. auto.
  - rewrite Forall_app. split; [exact H3 |].
    repeat constructor. apply is_prefix_refl.
Qed.

Section Invariants.

Variable Locals : Type.
Variable on_line : JsString.t -> Locals -> Flow * Locals.

(** A property of the locals kept by every line of a given kind is kept
    by the loops over lines of that kind. *)
Section Kept.

Variable A : JsString.t -> Prop.
Variable P : Locals -> Prop.
Hypothesis on_line_keeps :
  forall line l, A line -> P l -> P (snd (on_line line l)).

Lemma for_lines_keeps_on (lines : list JsString.t) (l : Locals) :
  Forall A lines -> P l -> P (snd (for_lines on_line lines l)).
Proof.
  intros HA. revert l.
  induction HA as [|line rest Hline _ IH]; intros l Hl; simpl;
    [exact Hl |].
  pose proof (on_line_keeps line l Hline Hl) as H.
  destruct (on_line line l) as [[| |] l']; simpl in *; auto.
Qed.

Lemma read_loop_keeps_on (cs : list (list byte)) (fails : bool)
    (l : Locals) :
  Forall (fun value => Forall A (lines_of value)) cs ->
  P l -> P (snd (read_loop on_line cs fails l)).
Proof.
  intros HA. revert l.
  induction HA as [|value cs Hvalue _ IH]; intros l Hl; simpl;
    [exact Hl |].
  pose proof (for_lines_keeps_on (lines_of value) l Hvalue Hl) as H.
  unfold on_chunk. fold (lines_of value).
  destruct (for_lines on_line _ l) as [[|] l']; simpl in *; auto.
Qed.

End Kept.

Variable P : Locals -> Prop.
Hypothesis on_line_keeps :
  forall line l, P l -> P (snd (on_line line l)).

Lemma for_lines_keeps (lines : list JsString.t) (l : Locals) :
  P l -> P (snd (for_lines on_line lines l)).
Proof.
  apply (for_lines_keeps_on (fun _ => True) P); [auto |].
  apply Forall_forall. auto.
Qed.

Lemma read_loop_keeps (cs : list (list byte)) (fails : bool)
    (l : Locals) :
  P l -> P (snd (read_loop on_line cs fails l)).
Proof.
  apply (read_loop_keeps_on (fun _ => True) P); [auto |].
  apply Forall_forall. intros. apply Forall_forall. auto.
Qed.

(** Lines that do not leave the loop body can be run first. *)
Lemma for_lines_app (pre rest : list JsString.t) (l : Locals) :
  Forall (fun line => forall l', fst (on_line line l') = Continue) pre ->
  for_lines on_line (pre ++ rest) l
  = for_lines on_line rest (snd (for_lines on_line pre l)).
Proof.
  intros H. revert l.
  induction H as [|line pre Hline _ IH]; intros l; simpl;
    [reflexivity |].
  specialize (Hline l).
  destruct (on_line line l) as [f l']; simpl in Hline; subst f.
  apply IH.
Qed.


End Invariants.

(** Reading the chunks one by one, and reading them as one chunk. *)
Section Alignment.

Variable Locals : Type.
Variable on_line : JsString.t -> Locals -> Flow * Locals.
Variables stops inert : JsString.t -> bool.

Hypothesis stops_spec :
  forall line l, fst (on_line line l) = Break -> stops line = true.
Hypothesis inert_spec :
  forall line l, inert line = true -> on_line line l = (Continue, l).
Hypothesis blank_inert : inert [] = true.
Hypothesis blank_goes_on : stops [] = false.









End Alignment.

End AppFacts.

(** ** What one line does, in each variant *)

Module LineFacts.

Import JsString App Protocol JsStringFacts AppFacts.

Lemma frame_inv (line : JsString.t) :
  is_frame line = true -> line = lit "data: " ++ payload line.
Proof.
  unfold is_frame, payload. intros H.
  apply startsWith_spec in H as [r ->].
  change 6%Z with (Z.of_nat (length (lit "data: "))).
  rewrite slice_from_app. reflexivity.
Qed.

Lemma payload_frame (r : JsString.t) : payload (lit "data: " ++ r) = r.
Proof.
  unfold payload.
  change 6%Z with (Z.of_nat (length (lit "data: "))).
  apply slice_from_app.
Qed.

(** A line that is not a frame is passed over, in both variants. *)
Lemma V1_skips (line : JsString.t) (l : V1.Locals) :
  is_frame line = false -> V1.on_line line l = (Continue, l).
Proof.
  unfold is_frame, V1.on_line. intros ->.
  rewrite orb_true_r. reflexivity.
Qed.

Lemma V2_skips (line : JsString.t) (l : V2.Locals) :
  is_frame line = false -> V2.on_line line l = (Continue, l).
Proof.
  unfold is_frame, V2.on_line. intros ->.
  rewrite orb_true_r. reflexivity.
Qed.

(** In the first variant [data] keeps the space of the marker, so neither
    the sources branch nor the [DONE] branch is ever taken. *)
Lemma V1_frame (line : JsString.t) (l : V1.Locals) :
  is_frame line = true ->
  V1.on_line line l =
    let data := 0x20 :: payload line in
    if negb (includes data (lit "[SOURCES]"))
       && negb (includes data (lit "[ERROR]"))
    then
      (Continue,
       V1.mkLocals (V1.tempResponse l ++ data) (V1.sources l)
         (setMessages
            (V1.assign_last (set_content (V1.tempResponse l ++ data)))
            (V1.run l)))
    else (Continue, l).
Proof.
  intros H. apply startsWith_spec in H as [r ->].
  rewrite payload_frame. unfold V1.on_line.
  rewrite data_line_truthy, startsWith_app by apply startsWith_app.
  change 5%Z with (Z.of_nat 5). rewrite slice_from_skipn.
  change (skipn 5 (lit "data: " ++ r)) with (0x20 :: r).
  cbn [negb orb]. cbv zeta.
  replace (startsWith (0x20 :: r) (lit "[SOURCES]")) with false
    by reflexivity.
  replace (JsString.eqb (0x20 :: r) (lit "[DONE]")) with false
    by reflexivity.
  cbn [andb negb]. rewrite andb_true_r. reflexivity.
Qed.


(** The second variant classifies the payload itself. *)
Lemma V2_frame (line : JsString.t) (l : V2.Locals) :
  is_frame line = true ->
  V2.on_line line l =
    let data := payload line in
    if is_sources data then
      match JSON.parse (slice data 9 (-10)) with
      | Some v => (Continue, V2.mkLocals (V2.tempResponse l) v (V2.run l))
      | None => (Throw, l)
      end
    else if is_error data then
      (Break,
       V2.mkLocals (V2.tempResponse l) (V2.sources l)
         (setError
            (Some (text "聊天請求失敗: "
                   ++ replace (replace data (lit "[ERROR]") [])
                        (lit "[/ERROR]") []))
            (V2.run l)))
    else if is_done data then
      (Break,
       V2.mkLocals (V2.tempResponse l) (V2.sources l)
         (setMessages
            (update_last (fun _ =>
               mkMessage assistant (V2.tempResponse l)
                 (Some (V2.sources l))))
            (V2.run l)))
    else
      (Continue,
       V2.mkLocals (V2.tempResponse l ++ data) (V2.sources l)
         (setMessages
            (update_last (set_content (V2.tempResponse l ++ data)))
            (V2.run l))).
Proof.
  intros H. unfold V2.on_line.
  rewrite (data_line_truthy line H). unfold is_frame in H. rewrite H.
  reflexivity.
Qed.

(** The first variant never leaves the loop from inside a line, and never
    assigns [sources]. *)
Lemma V1_flow (line : JsString.t) (l : V1.Locals) :
  fst (V1.on_line line l) = Continue.
Proof.
  destruct (is_frame line) eqn:H.
  - rewrite (V1_frame line l H). cbv zeta.
    destruct (negb _ && negb _); reflexivity.
  - rewrite (V1_skips line l H). reflexivity.
Qed.

Lemma V1_sources (line : JsString.t) (l : V1.Locals) :
  V1.sources (snd (V1.on_line line l)) = V1.sources l.
Proof.
  destruct (is_frame line) eqn:H.
  - rewrite (V1_frame line l H). cbv zeta.
    destruct (negb _ && negb _); reflexivity.
  - rewrite (V1_skips line l H). reflexivity.
Qed.

(** In the second variant how a line leaves the loop body depends on the
    line alone. *)
Lemma V2_flow (line : JsString.t) (l l' : V2.Locals) :
  fst (V2.on_line line l) = fst (V2.on_line line l').
Proof.
  destruct (is_frame line) eqn:H.
  - rewrite !(V2_frame line _ H). cbv zeta.
    destruct (is_sources _); [destruct (JSON.parse _); reflexivity |].
    destruct (is_error _); [reflexivity |].
    destruct (is_done _); reflexivity.
  - rewrite !(V2_skips line _ H). reflexivity.
Qed.

End LineFacts.

(** ** The first variant as a whole *)

Module V1Facts.

Import JsString App Protocol Phases JsStringFacts AppFacts LineFacts.

Lemma assign_last_assistant (f : Message -> Message) (ms : list Message)
    (m : Message) :
  role m = assistant -> V1.assign_last f (ms ++ [m]) = ms ++ [f m].
Proof.
  intros H. unfold V1.assign_last. rewrite update_last_snoc, H.
  reflexivity.
Qed.

Lemma V1_on_line_tracks (base : list Message) (line : JsString.t)
    (l : V1.Locals) :
  V1_tracks base l -> V1_tracks base (snd (V1.on_line line l)).
Proof.
  unfold V1_tracks. intros H. destruct (is_frame line) eqn:Hf.
  - rewrite (V1_frame line l Hf). cbv zeta.
    destruct (negb _ && negb _); simpl; [| exact H].
    rewrite H, assign_last_assistant by reflexivity. reflexivity.
  - rewrite (V1_skips line l Hf). exact H.
Qed.

Lemma update_chat_messages (s : State) (env : Env) (r : Run) :
  messages (ui (V1.update_chat s env r)) = messages (ui r).
Proof.
  unfold V1.update_chat, fetchChatHistories.
  destruct (currentChatId s) as [cid|]; [| reflexivity].
  destruct (truthy cid); [| reflexivity].
  destruct (put_history env); [| reflexivity].
  destruct (get_histories env); reflexivity.
Qed.

Lemma on_catch_messages (d : option JsString.t) (r : Run) :
  messages (ui (V1.on_catch d r)) = messages (ui r).
Proof. destruct d; reflexivity. Qed.

(** Once the response is being read, the run ends with the user message
    and an assistant message whose sources are the empty array, whatever
    the stream holds. *)
Lemma handleSubmit_messages (s : State) (env : Env) (b : Body)
    (cid : JsString.t) :
  truthy (trim (input s)) = true ->
  post_history env = Resolved cid ->
  fetch_chat env = Some (mkResponse true (Some b)) ->
  exists c,
    messages (ui (V1.handleSubmit s env))
    = messages s
      ++ [mkMessage user (trim (input s)) None;
          mkMessage assistant c (Some (JSON.Array []))].
Proof.
  intros Hin Hpost Hfetch. unfold V1.handleSubmit.
  rewrite Hin, Hpost, Hfetch. cbn [negb ok body].
  set (newMessage := mkMessage user (trim (input s)) None).
  set (base := messages s ++ [newMessage]).
  assert (forall r0,
    exists c,
      messages (ui
        match read_loop V1.on_line (chunks b) (read_fails b)
                (V1.mkLocals [] (JSON.Array [])
                   (setMessages
                      (fun _ => messages s
                                ++ [newMessage;
                                    mkMessage assistant []
                                      (Some (JSON.Array []))]) r0))
        with
        | (true, l) => setIsLoading false (V1.on_catch None (V1.run l))
        | (false, l) => setIsLoading false (V1.update_chat s env (V1.run l))
        end)
      = base ++ [mkMessage assistant c (Some (JSON.Array []))]) as Hloop.
  { intros r0.
    pose proof (read_loop_keeps V1.Locals V1.on_line (V1_tracks base)
                  (V1_on_line_tracks base) (chunks b) (read_fails b)
                  (V1.mkLocals [] (JSON.Array [])
                     (setMessages
                        (fun _ => messages s
                                  ++ [newMessage;
                                      mkMessage assistant []
                                        (Some (JSON.Array []))]) r0)))
      as Hk.
    destruct (read_loop _ _ _ _) as [[|] l]; simpl in Hk;
      exists (V1.tempResponse l).
    - cbn [setIsLoading ui messages]. rewrite on_catch_messages.
      apply Hk. unfold V1_tracks, base. simpl. rewrite <- app_assoc.
      reflexivity.
    - cbn [setIsLoading ui messages]. rewrite update_chat_messages.
      apply Hk. unfold V1_tracks, base. simpl. rewrite <- app_assoc.
      reflexivity. }
  destruct (negb (truthy_opt (currentChatId s)));
    match goal with |- context [setMessages _ ?r] =>
      destruct (Hloop r) as [c Hc] end;
    exists c; unfold base in Hc; rewrite <- app_assoc in Hc; exact Hc.
Qed.

Lemma update_chat_renders (s : State) (env : Env) (r : Run) :
  renders (V1.update_chat s env r) = renders r.
Proof.
  unfold V1.update_chat, fetchChatHistories.
  destruct (currentChatId s) as [cid|]; [| reflexivity].
  destruct (truthy cid); [| reflexivity].
  destruct (put_history env); [| reflexivity].
  destruct (get_histories env); reflexivity.
Qed.

Lemma on_catch_renders (d : option JsString.t) (r : Run) :
  renders (V1.on_catch d r) = renders r.
Proof. destruct d; reflexivity. Qed.

Lemma V1_closing_renders (s : State) (env : Env) (res : bool * V1.Locals) :
  renders (V1_closing s env res) = renders (V1.run (snd res)).
Proof.
  destruct res as [[|] l]; cbn [V1_closing snd setIsLoading renders].
  - apply on_catch_renders.
  - apply update_chat_renders.
Qed.

Lemma V1_on_line_invariant (base : list Message) (line : JsString.t)
    (l : V1.Locals) :
  V1_invariant base l -> V1_invariant base (snd (V1.on_line line l)).
Proof.
  intros (Ht & Hr & Hc). destruct (is_frame line) eqn:Hf.
  - rewrite (V1_frame line l Hf). cbv zeta.
    destruct (negb _ && negb _); [| repeat split; assumption].
    unfold V1_invariant, V1_tracks in *. simpl.
    rewrite Ht, assign_last_assistant by reflexivity.
    unfold set_content. simpl. repeat split.
    + rewrite Forall_app. split; [exact Hr |].
      repeat constructor. eexists. apply last_message_snoc.
    + rewrite assistant_contents_snoc.
      eapply chain_extend; [exact Hc | apply is_prefix_app].
  - rewrite (V1_skips line l Hf). repeat split; assumption.
Qed.

(** Every value the first variant gives to the message list ends with the
    assistant message with the empty array as its sources, and the
    contents of that message form a chain of prefixes. *)
Lemma handleSubmit_renders (s : State) (env : Env) :
  Forall V1_empty_sources (renders (V1.handleSubmit s env))
  /\ StronglySorted is_prefix
       (assistant_contents (renders (V1.handleSubmit s env))).
Proof.
  assert (forall r0 b, renders r0 = [] ->
    let res :=
      read_loop V1.on_line (chunks b) (read_fails b)
        (V1.mkLocals [] (JSON.Array [])
           (setMessages
              (fun _ => messages s
                        ++ [mkMessage user (trim (input s)) None;
                            mkMessage assistant [] (Some (JSON.Array []))])
              r0)) in
    Forall V1_empty_sources (renders (V1_closing s env res))
    /\ StronglySorted is_prefix
         (assistant_contents (renders (V1_closing s env res)))) as Hloop.
  { intros r0 b Hr0 res. rewrite V1_closing_renders.
    set (base := messages s ++ [mkMessage user (trim (input s)) None]).
    assert (V1_invariant base (snd res)) as (_ & H1 & H2).
    { apply read_loop_keeps; [apply V1_on_line_invariant |].
      unfold V1_invariant, V1_tracks, base. simpl. rewrite Hr0. simpl.
      repeat split.
      - rewrite <- app_assoc. reflexivity.
      - repeat constructor. eexists.
        rewrite snoc_two. apply last_message_snoc.
      - rewrite snoc_two, last_message_snoc. simpl.
        repeat constructor. apply is_prefix_refl. }
    split; [exact H1 | exact (chain_init _ _ H2)]. }
  unfold V1.handleSubmit. cbv zeta.
  destruct (negb (truthy (trim (input s))));
    [split; constructor |].
  assert (forall d r, renders r = [] ->
    Forall V1_empty_sources (renders (setIsLoading false (V1.on_catch d r)))
    /\ StronglySorted is_prefix
         (assistant_contents
            (renders (setIsLoading false (V1.on_catch d r))))) as Hfail.
  { intros d r Hr. cbn [setIsLoading renders].
    rewrite on_catch_renders, Hr. split; constructor. }
  assert (forall r, renders r = [] ->
    let r1 := send (PostChatStream (trim (input s)) (messages s)) r in
    forall resp,
    Forall V1_empty_sources
      (renders
         (if negb (ok resp) then setIsLoading false (V1.on_catch None r1)
          else
            match body resp with
            | None =>
                setIsLoading false (V1.on_catch None
                  (setMessages
                     (fun _ => messages s
                               ++ [mkMessage user (trim (input s)) None;
                                   mkMessage assistant []
                                     (Some (JSON.Array []))]) r1))
            | Some b =>
                match read_loop V1.on_line (chunks b) (read_fails b)
                        (V1.mkLocals [] (JSON.Array [])
                           (setMessages
                              (fun _ => messages s
                                        ++ [mkMessage user (trim (input s))
                                              None;
                                            mkMessage assistant []
                                              (Some (JSON.Array []))]) r1))
                with
                | (true, l) =>
                    setIsLoading false (V1.on_catch None (V1.run l))
                | (false, l) =>
                    setIsLoading false (V1.update_chat s env (V1.run l))
                end
            end))
    /\ StronglySorted is_prefix
         (assistant_contents
            (renders
               (if negb (ok resp)
                then setIsLoading false (V1.on_catch None r1)
                else
                  match body resp with
                  | None =>
                      setIsLoading false (V1.on_catch None
                        (setMessages
                           (fun _ => messages s
                                     ++ [mkMessage user (trim (input s)) None;
                                         mkMessage assistant []
                                           (Some (JSON.Array []))]) r1))
                  | Some b =>
                      match read_loop V1.on_line (chunks b) (read_fails b)
                              (V1.mkLocals [] (JSON.Array [])
                                 (setMessages
                                    (fun _ => messages s
                                              ++ [mkMessage user
                                                    (trim (input s)) None;
                                                  mkMessage assistant []
                                                    (Some (JSON.Array []))])
                                    r1))
                      with
                      | (true, l) =>
                          setIsLoading false (V1.on_catch None (V1.run l))
                      | (false, l) =>
                          setIsLoading false
                            (V1.update_chat s env (V1.run l))
                      end
                  end)))) as Hresp.
  { intros r Hr r1 resp.
    destruct (negb (ok resp)); [apply Hfail; exact Hr |].
    destruct (body resp) as [b|].
    - exact (Hloop r1 b Hr).
    - cbn [setIsLoading renders]. rewrite on_catch_renders.
      cbn [setMessages renders]. unfold r1. cbn [send renders].
      rewrite Hr. cbn [app]. rewrite snoc_two. split.
      + repeat constructor. eexists. apply last_message_snoc.
      + rewrite assistant_contents_one. repeat constructor. }
  destruct (negb (truthy_opt (currentChatId s))).
  - destruct (post_history env) as [cid | detail].
    + destruct (fetch_chat env) as [resp|].
      * apply Hresp. reflexivity.
      * apply Hfail. reflexivity.
    + apply Hfail. reflexivity.
  - destruct (fetch_chat env) as [resp|].
    + apply Hresp. reflexivity.
    + apply Hfail. reflexivity.
Qed.



End V1Facts.

(** ** The second variant as a whole *)

Module V2Facts.

Import JsString App Protocol Phases JsStringFacts AppFacts LineFacts.

(** [handleSubmit] is the opening, the loop and the closing. *)
Lemma handleSubmit_phases (s : State) (env : Env) (b : Body) :
  truthy (trim (input s)) = true ->
  isLoading s = false ->
  fetch_chat env = Some (mkResponse true (Some b)) ->
  V2.handleSubmit s env
  = V2_closing s env
      (read_loop V2.on_line (chunks b) (read_fails b)
         (V2.mkLocals [] (JSON.Array []) (V2_opening s))).
Proof.
  intros Hin Hload Hfetch. unfold V2.handleSubmit, V2_closing, V2_opening.
  rewrite Hin, Hload, Hfetch. cbn [negb orb ok body].
  destruct (read_loop _ _ _ _) as [[|] l]; reflexivity.
Qed.


Lemma sources_not_done (d : JsString.t) :
  is_sources d = true -> is_done d = false.
Proof.
  unfold is_sources, is_done. intros H.
  apply andb_true_iff in H as [H _].
  apply startsWith_spec in H as [r ->]. reflexivity.
Qed.

Lemma done_not_error (d : JsString.t) :
  is_done d = true -> is_error d = false.
Proof.
  unfold is_done. intros H. apply eqb_eq in H. subst d. reflexivity.
Qed.

Lemma done_not_sources (d : JsString.t) :
  is_done d = true -> is_sources d = false.
Proof.
  unfold is_done. intros H. apply eqb_eq in H. subst d. reflexivity.
Qed.


(** A sources frame whose inner text is not JSON throws out of the
    loop. *)
Lemma bad_sources_throw (line : JsString.t) (l : V2.Locals) :
  is_frame line = true ->
  is_sources (payload line) = true ->
  JSON.parse (slice (payload line) 9 (-10)) = None ->
  V2.on_line line l = (Throw, l).
Proof.
  intros Hf Hs Hp. rewrite (V2_frame line l Hf). cbv zeta.
  rewrite Hs, Hp. reflexivity.
Qed.


(** A plain line appends its fragment and nothing else. *)
Lemma plain_line (line : JsString.t) (l : V2.Locals) :
  is_plain line = true ->
  V2.on_line line l =
    if is_frame line then
      (Continue,
       V2.mkLocals (V2.tempResponse l ++ payload line) (V2.sources l)
         (setMessages
            (update_last (set_content (V2.tempResponse l ++ payload line)))
            (V2.run l)))
    else (Continue, l).
Proof.
  unfold is_plain. intros H. destruct (is_frame line) eqn:Hf.
  - rewrite (V2_frame line l Hf). cbv zeta. simpl in H.
    apply negb_true_iff in H.
    apply orb_false_iff in H as [H Hd].
    apply orb_false_iff in H as [Hs He].
    rewrite Hs, He, Hd. reflexivity.
  - apply V2_skips. exact Hf.
Qed.






Lemma closing_messages (s : State) (env : Env) (l : V2.Locals) :
  messages (ui (V2_closing s env (false, l)))
  = (messages s ++ [mkMessage user (trim (input s)) None])
    ++ [mkMessage assistant (V2.tempResponse l) (Some (V2.sources l))].
Proof. reflexivity. Qed.











(** Plain lines append their fragments in order and change nothing
    else. *)
Lemma for_lines_plain (lines : list JsString.t) (l : V2.Locals) :
  Forall (fun line => is_plain line = true) lines ->
  let res := for_lines V2.on_line lines l in
  fst res = false
  /\ V2.tempResponse (snd res) = V2.tempResponse l ++ fragments lines
  /\ V2.sources (snd res) = V2.sources l
  /\ error (ui (V2.run (snd res))) = error (ui (V2.run l)).
Proof.
  intros H. revert l.
  induction H as [|line rest Hline _ IH]; intros l; simpl.
  - rewrite app_nil_r. auto.
  - rewrite (plain_line line l Hline). unfold fragments. simpl.
    destruct (is_frame line).
    + destruct (IH (V2.mkLocals (V2.tempResponse l ++ payload line)
                      (V2.sources l)
                      (setMessages
                         (update_last
                            (set_content (V2.tempResponse l ++ payload line)))
                         (V2.run l)))) as (H1 & H2 & H3 & H4).
      repeat split; [exact H1 | | exact H3 | exact H4].
      rewrite H2. simpl. rewrite <- app_assoc. reflexivity.
    + apply IH.
Qed.

Lemma plain_continues (line : JsString.t) (l : V2.Locals) :
  is_plain line = true -> fst (V2.on_line line l) = Continue.
Proof.
  intros H. rewrite (plain_line line l H).
  destruct (is_frame line); reflexivity.
Qed.

Lemma read_loop_plain (cs : list (list byte)) (fails : bool)
    (l : V2.Locals) :
  Forall (fun value =>
            Forall (fun line => is_plain line = true) (lines_of value)) cs ->
  let res := read_loop V2.on_line cs fails l in
  fst res = fails
  /\ V2.tempResponse (snd res)
     = V2.tempResponse l ++ fragments (flat_map lines_of cs).
Proof.
  intros H. revert l.
  induction H as [|value cs Hvalue _ IH]; intros l; simpl.
  - rewrite app_nil_r. auto.
  - unfold on_chunk. fold (lines_of value).
    destruct (for_lines_plain (lines_of value) l Hvalue)
      as (H1 & H2 & _ & _).
    destruct (for_lines V2.on_line (lines_of value) l) as [t l'].
    simpl in H1, H2. subst t.
    destruct (IH l') as [H3 H4]. split; [exact H3 |].
    rewrite H4, H2. unfold fragments. rewrite flat_map_app.
    apply eq_sym, app_assoc.
Qed.

(** One chunk that holds fragments, a sources frame that parses, more
    fragments and then [[DONE]]: the second variant ends with all the
    fragments as the content and the parsed value as the sources. *)
Lemma done_attaches_sources (s : State) (env : Env) (value : list byte)
    (pre mid rest : list JsString.t) (src fin : JsString.t)
    (X : JSON.value) :
  truthy (trim (input s)) = true ->
  isLoading s = false ->
  fetch_chat env = Some (mkResponse true (Some (mkBody [value] false))) ->
  lines_of value = pre ++ src :: mid ++ fin :: rest ->
  Forall (fun line => is_plain line = true) pre ->
  Forall (fun line => is_plain line = true) mid ->
  is_frame src = true -> is_sources (payload src) = true ->
  JSON.parse (slice (payload src) 9 (-10)) = Some X ->
  is_frame fin = true -> is_done (payload fin) = true ->
  last_message (messages (ui (V2.handleSubmit s env)))
  = Some (mkMessage assistant (fragments pre ++ fragments mid) (Some X)).
Proof.
  intros Hin Hload Hfetch Hlines Hpre Hmid Hsf Hss HX Hff Hfd.
  rewrite (handleSubmit_phases s env _ Hin Hload Hfetch).
  cbn [chunks read_fails read_loop]. unfold on_chunk.
  fold (lines_of value). rewrite Hlines.
  set (l0 := V2.mkLocals [] (JSON.Array []) (V2_opening s)).
  rewrite for_lines_app
    by (eapply Forall_impl; [| exact Hpre];
        intros; apply plain_continues; assumption).
  destruct (for_lines_plain pre l0 Hpre) as (_ & Ht1 & _ & _).
  set (l1 := snd (for_lines V2.on_line pre l0)) in *.
  cbn [for_lines]. rewrite (V2_frame src l1 Hsf). cbv zeta.
  rewrite Hss, HX.
  rewrite for_lines_app
    by (eapply Forall_impl; [| exact Hmid];
        intros; apply plain_continues; assumption).
  set (l2 := V2.mkLocals (V2.tempResponse l1) X (V2.run l1)).
  destruct (for_lines_plain mid l2 Hmid) as (_ & Ht2 & Hs2 & _).
  set (l3 := snd (for_lines V2.on_line mid l2)) in *.
  cbn [for_lines]. rewrite (V2_frame fin l3 Hff). cbv zeta.
  rewrite (done_not_sources _ Hfd), (done_not_error _ Hfd), Hfd.
  rewrite closing_messages, last_message_snoc.
  rewrite Ht2, Hs2. unfold l2. cbn [V2.tempResponse V2.sources].
  rewrite Ht1. reflexivity.
Qed.




End V2Facts.

(** ** The shape of a run of [handleSubmit] *)

Module RunFacts.

Import JsString App Protocol Phases JsStringFacts AppFacts LineFacts.

(** The loop of the first variant never throws. *)
Lemma V1_for_lines_returns (lines : list JsString.t) (l : V1.Locals) :
  fst (for_lines V1.on_line lines l) = false.
Proof.
  revert l. induction lines as [|line rest IH]; intros l; simpl;
    [reflexivity |].
  pose proof (V1_flow line l) as H.
  destruct (V1.on_line line l) as [f l']. simpl in H. subst f. apply IH.
Qed.

Lemma V1_read_loop_returns (cs : list (list byte)) (fails : bool)
    (l : V1.Locals) :
  fst (read_loop V1.on_line cs fails l) = fails.
Proof.
  revert l. induction cs as [|value cs IH]; intros l; simpl;
    [reflexivity |].
  unfold on_chunk.
  pose proof (V1_for_lines_returns
                (split nl (TextDecoder.decode value)) l) as H.
  destruct (for_lines V1.on_line _ l) as [t l']. simpl in H. subst t.
  apply IH.
Qed.

(** The loop of the first variant changes the content of the assistant
    message and nothing else of the component, and sends nothing. *)
Lemma V1_loop_shape (cs : list (list byte)) (fails : bool) (r1 : Run)
    (base : list Message) :
  messages (ui r1) = base ++ [mkMessage assistant [] (Some (JSON.Array []))] ->
  exists c rs,
    read_loop V1.on_line cs fails (V1.mkLocals [] (JSON.Array []) r1)
    = (fails,
       V1.mkLocals c (JSON.Array [])
         (mkRun
            (mkState
               (base ++ [mkMessage assistant c (Some (JSON.Array []))])
               (input (ui r1)) (isLoading (ui r1)) (error (ui r1))
               (chatHistories (ui r1)) (currentChatId (ui r1)))
            (requests r1) rs)).
Proof.
  intros Hm.
  set (P := fun l : V1.Locals =>
    exists c rs,
      l = V1.mkLocals c (JSON.Array [])
            (mkRun
               (mkState
                  (base ++ [mkMessage assistant c (Some (JSON.Array []))])
                  (input (ui r1)) (isLoading (ui r1)) (error (ui r1))
                  (chatHistories (ui r1)) (currentChatId (ui r1)))
               (requests r1) rs)).
  assert (forall line l, P l -> P (snd (V1.on_line line l))) as Hstep.
  { intros line l (c & rs & ->). destruct (is_frame line) eqn:Hf.
    - rewrite (V1_frame line _ Hf). cbv zeta.
      destruct (negb _ && negb _); [| exists c, rs; reflexivity].
      eexists. eexists. cbn [snd]. unfold setMessages.
      cbn [V1.run V1.tempResponse V1.sources ui messages input isLoading
           error chatHistories currentChatId requests renders].
      rewrite V1Facts.assign_last_assistant by reflexivity. reflexivity.
    - rewrite (V1_skips line _ Hf). exists c, rs. reflexivity. }
  assert (P (V1.mkLocals [] (JSON.Array []) r1)) as H0.
  { exists [], (renders r1). destruct r1 as [[ms i ld e hs cid] rq rs].
    simpl in *. rewrite Hm. reflexivity. }
  pose proof (read_loop_keeps V1.Locals V1.on_line P Hstep cs fails _ H0)
    as (c & rs & E).
  pose proof (V1_read_loop_returns cs fails
                (V1.mkLocals [] (JSON.Array []) r1)) as Hf.
  destruct (read_loop V1.on_line cs fails _) as [t l']. simpl in *.
  subst t l'. exists c, rs. reflexivity.
Qed.

(** The loop of the second variant changes the assistant message and the
    error and nothing else of the component, and sends nothing. *)
Lemma V2_loop_shape (cs : list (list byte)) (fails : bool) (r1 : Run)
    (base : list Message) :
  messages (ui r1) = base ++ [mkMessage assistant [] None] ->
  exists t c src so e rs,
    read_loop V2.on_line cs fails (V2.mkLocals [] (JSON.Array []) r1)
    = (t,
       V2.mkLocals c src
         (mkRun
            (mkState (base ++ [mkMessage assistant c so])
               (input (ui r1)) (isLoading (ui r1)) e
               (chatHistories (ui r1)) (currentChatId (ui r1)))
            (requests r1) rs)).
Proof.
  intros Hm.
  set (P := fun l : V2.Locals =>
    exists c src so e rs,
      l = V2.mkLocals c src
            (mkRun
               (mkState (base ++ [mkMessage assistant c so])
                  (input (ui r1)) (isLoading (ui r1)) e
                  (chatHistories (ui r1)) (currentChatId (ui r1)))
               (requests r1) rs)).
  assert (forall line l, P l -> P (snd (V2.on_line line l))) as Hstep.
  { intros line l (c & src & so & e & rs & ->).
    destruct (is_frame line) eqn:Hf.
    - rewrite (V2_frame line _ Hf). cbv zeta.
      destruct (is_sources _).
      { destruct (JSON.parse _); cbn [snd];
          repeat eexists. }
      destruct (is_error _); [cbn [snd]; repeat eexists |].
      destruct (is_done _); cbn [snd]; unfold setMessages;
        cbn [V2.run V2.tempResponse V2.sources ui messages input isLoading
             error chatHistories currentChatId requests renders];
        rewrite update_last_snoc; repeat eexists.
    - rewrite (V2_skips line _ Hf). repeat eexists. }
  assert (P (V2.mkLocals [] (JSON.Array []) r1)) as H0.
  { exists [], (JSON.Array []), None, (error (ui r1)), (renders r1).
    destruct r1 as [[ms i ld e hs cid] rq rs].
    simpl in *. rewrite Hm. reflexivity. }
  pose proof (read_loop_keeps V2.Locals V2.on_line P Hstep cs fails _ H0)
    as (c & src & so & e & rs & E).
  destruct (read_loop V2.on_line cs fails _) as [t l']. simpl in E.
  subst l'. exists t, c, src, so, e, rs. reflexivity.
Qed.

End RunFacts.

(** ** More facts about the string operations *)

Module TrimFacts.

Import JsString Vocabulary JsStringFacts.

Lemma trimStart_head (s : t) :
  match trimStart s with
  | c :: _ => isWhiteSpace c = false
  | [] => True
  end.
Proof.
  induction s as [|c s IH]; simpl; [exact I |].
  destruct (isWhiteSpace c) eqn:E; [exact IH | exact E].
Qed.

Lemma trimStart_keeps_last (y : t) (c : N) :
  isWhiteSpace c = false -> exists pre, trimStart (y ++ [c]) = pre ++ [c].
Proof.
  intros Hc. induction y as [|d y [pre IH]]; simpl.
  - rewrite Hc. exists []. reflexivity.
  - destruct (isWhiteSpace d).
    + exists pre. exact IH.
    + exists (d :: y). reflexivity.
Qed.

(** What [trim] returns neither starts nor ends with white space. *)
Lemma trim_ends_clean (s : t) : ends_clean (trim s) = true.
Proof.
  unfold ends_clean, trim, trimEnd. rewrite rev_involutive.
  pose proof (trimStart_head (rev (trimStart s))) as Hlast.
  pose proof (trimStart_head s) as Hhead.
  apply andb_true_iff. split.
  - destruct (trimStart s) as [|c x]; [reflexivity |].
    simpl rev. destruct (trimStart_keeps_last (rev x) c Hhead) as [pre E].
    rewrite E, rev_app_distr. simpl. rewrite Hhead. reflexivity.
  - destruct (trimStart (rev (trimStart s))) as [|c x]; [reflexivity |].
    rewrite Hlast. reflexivity.
Qed.

(** [slice(0, n)] has at most [n] units. *)
Lemma slice_head_length (s : t) (n : nat) :
  (length (slice s 0 (Z.of_nat n)) <= n)%nat.
Proof.
  unfold slice. rewrite length_firstn.
  unfold clamp. cbn [Z.ltb Z.compare].
  destruct (Z.ltb_spec (Z.of_nat n) 0); lia.
Qed.

Lemma endsWith_app (x p : t) : endsWith (x ++ p) p = true.
Proof. apply endsWith_spec. exists x. reflexivity. Qed.

(** A title cut at [n] units and closed with three dots. *)
Lemma title_is_short (s : t) (n : nat) :
  (length (slice s 0 (Z.of_nat n) ++ lit "...") <= n + 3)%nat
  /\ endsWith (slice s 0 (Z.of_nat n) ++ lit "...") (lit "...") = true.
Proof.
  split; [| apply endsWith_app].
  rewrite length_app. pose proof (slice_head_length s n). simpl. lia.
Qed.

End TrimFacts.

(** ** Facts about the other handlers *)

Module HandlerFacts.

Import JsString App Protocol Phases Handlers Vocabulary AppFacts RunFacts.

Lemma filter_index_all (keep : nat -> bool) (l : list FileInfo) (k : nat) :
  (forall i, (k <= i)%nat -> keep i = true) ->
  filter_index keep k l = l.
Proof.
  revert k. induction l as [|f l IH]; intros k Hk; simpl.
  - reflexivity.
  - rewrite (Hk k) by lia. f_equal. apply IH. intros i Hi. apply Hk. lia.
Qed.

Lemma filter_index_skips (keep : nat -> bool) (l : list FileInfo)
    (k index : nat) :
  (forall i, keep i = negb (Nat.eqb i (k + index))) ->
  filter_index keep k l = firstn index l ++ skipn (S index) l.
Proof.
  revert k index. induction l as [|f l IH]; intros k index Hkeep.
  - destruct index; reflexivity.
  - simpl filter_index. rewrite Hkeep. destruct index as [|n].
    + replace (k + 0)%nat with k by lia. rewrite Nat.eqb_refl. simpl.
      apply filter_index_all. intros i Hi. rewrite Hkeep.
      destruct (Nat.eqb_spec i (k + 0)); [lia | reflexivity].
    + destruct (Nat.eqb_spec k (k + S n)) as [E|_]; [lia |].
      simpl. f_equal. apply IH. intros i. rewrite Hkeep. f_equal. f_equal.
      lia.
Qed.

(** The steps on the page that leave the requests alone. *)
Lemma lift_quiet (f : Run -> Run) (x : Session) :
  requests (f (start (state (page x)))) = [] ->
  calls (lift f x) = calls x.
Proof.
  intros H. unfold lift. simpl. rewrite H. apply app_nil_r.
Qed.

Lemma calls_lift_setError (e : option JsString.t) (x : Session) :
  calls (lift (setError e) x) = calls x.
Proof. apply lift_quiet. reflexivity. Qed.

Lemma calls_lift_setIsLoading (v : bool) (x : Session) :
  calls (lift (setIsLoading v) x) = calls x.
Proof. apply lift_quiet. reflexivity. Qed.

(** *** The loop of [handleFileUpload] *)

(** One request per picked file, in the order of the list, whatever the
    outcomes. *)
Lemma upload_loop_calls (env : Backend) (fs : list File) (i : nat)
    (u : bool) (x : Session) :
  calls (snd (upload_loop env fs i u x)) = calls x ++ map PostUpload fs.
Proof.
  revert i u x. induction fs as [|file rest IH]; intros i u x.
  - simpl. symmetry. apply app_nil_r.
  - simpl upload_loop. destruct (post_upload env i); rewrite IH;
      [| rewrite calls_lift_setError]; simpl; rewrite <- app_assoc;
      reflexivity.
Qed.

(** [uploadSuccess] is set by the first upload that succeeds. *)
Lemma upload_loop_flag (env : Backend) (fs : list File) (i : nat)
    (u : bool) (x : Session) :
  fst (upload_loop env fs i u x) = u || any_uploaded env i (length fs).
Proof.
  revert i u x. induction fs as [|file rest IH]; intros i u x.
  - simpl. symmetry. apply orb_false_r.
  - simpl upload_loop. unfold any_uploaded in *. simpl. unfold uploaded at 1.
    destruct (post_upload env i); rewrite IH; simpl.
    + symmetry. apply orb_true_r.
    + reflexivity.
Qed.

(** The loop touches [files] and [error] only. *)
Lemma upload_loop_frame (env : Backend) (fs : list File) (i : nat)
    (u : bool) (x : Session) :
  let y := snd (upload_loop env fs i u x) in
  messages (state (page y)) = messages (state (page x))
  /\ input (state (page y)) = input (state (page x))
  /\ isLoading (state (page y)) = isLoading (state (page x))
  /\ currentChatId (state (page y)) = currentChatId (state (page x))
  /\ chatHistories (state (page y)) = chatHistories (state (page x))
  /\ vectorStoreStats (page y) = vectorStoreStats (page x)
  /\ document_title (page y) = document_title (page x).
Proof.
  revert i u x. induction fs as [|file rest IH]; intros i u x.
  - simpl. repeat split.
  - simpl upload_loop. destruct (post_upload env i);
      match goal with
      | |- context [upload_loop env rest ?j ?v ?x'] =>
          destruct (IH j v x') as (H1 & H2 & H3 & H4 & H5 & H6 & H7)
      end;
      cbv zeta; rewrite H1, H2, H3, H4, H5, H6, H7; repeat split.
Qed.

(** When every upload succeeds the loop leaves [error] as it found it. *)
Lemma upload_loop_quiet (env : Backend) (fs : list File) (i : nat)
    (u : bool) (x : Session) :
  (forall j, (i <= j < i + length fs)%nat -> uploaded env j = true) ->
  error (state (page (snd (upload_loop env fs i u x))))
  = error (state (page x)).
Proof.
  revert i u x. induction fs as [|file rest IH]; intros i u x Hall.
  - reflexivity.
  - simpl upload_loop. pose proof (Hall i) as Hi. unfold uploaded in Hi.
    simpl in Hi. destruct (post_upload env i).
    + rewrite IH; [reflexivity |]. intros j Hj. apply Hall. simpl. lia.
    + discriminate Hi. lia.
Qed.

(** No entry that the loop adds is left in the state [uploading]. *)
Lemma upload_loop_settles (env : Backend) (fs : list File) (i : nat)
    (u : bool) (x : Session) (before : list FileInfo) :
  (forall f, In f (files (page x)) -> is_uploading f = true ->
             In f before) ->
  forall f, In f (files (page (snd (upload_loop env fs i u x)))) ->
            is_uploading f = true -> In f before.
Proof.
  revert i u x. induction fs as [|file rest IH]; intros i u x Hx.
  - exact Hx.
  - simpl upload_loop. destruct (post_upload env i); apply IH; simpl;
      intros f Hf Hup.
    + apply filter_In in Hf. destruct Hf as [Hf Hname].
      apply in_app_or in Hf. destruct Hf as [Hf | [<- | []]].
      * apply Hx; assumption.
      * simpl in Hname. rewrite JsStringFacts.eqb_refl in Hname.
        discriminate.
    + apply in_map_iff in Hf. destruct Hf as (g & Hg & Hin).
      destruct (JsString.eqb (name g) _) eqn:E.
      * subst f. discriminate.
      * subst g. apply in_app_or in Hin. destruct Hin as [Hin | [<- | []]].
        -- apply Hx; assumption.
        -- simpl in E. rewrite JsStringFacts.eqb_refl in E. discriminate.
Qed.

(** When every upload fails, each picked file leaves one entry at the end
    of the list, under its own name. *)
Lemma upload_loop_failures (env : Backend) (fs : list File) (i : nat)
    (u : bool) (x : Session) :
  (forall j, (i <= j < i + length fs)%nat -> uploaded env j = false) ->
  map display_name (files (page (snd (upload_loop env fs i u x))))
  = map display_name (files (page x))
    ++ map (fun file => Some (file_name file)) fs.
Proof.
  revert i u x. induction fs as [|file rest IH]; intros i u x Hall.
  - simpl. symmetry. apply app_nil_r.
  - simpl upload_loop. pose proof (Hall i) as Hi. unfold uploaded in Hi.
    simpl in Hi. destruct (post_upload env i).
    + discriminate Hi. lia.
    + rewrite IH by (intros j Hj; apply Hall; simpl; lia).
      simpl. rewrite map_map.
      rewrite (map_ext _ display_name).
      * rewrite map_app, <- app_assoc. reflexivity.
      * intros f. destruct (JsString.eqb _ _); reflexivity.
Qed.

(** *** The requests of the second variant's [handleSubmit] *)

Lemma save_requests (s : State) (env : Env) (msgs : list Message)
    (title : JsString.t) (r : Run) :
  exists rest,
    requests (V2.saveOrUpdateChatHistory s env msgs title r)
    = requests r ++ save_request s msgs title :: rest
    /\ (rest = [] \/ rest = [GetHistories]).
Proof.
  unfold V2.saveOrUpdateChatHistory, save_request, fetchChatHistories.
  destruct (currentChatId s) as [cid|]; [destruct (truthy cid) |];
    destruct (put_history env), (post_history env), (get_histories env);
    simpl; eexists;
    (split; [try rewrite <- app_assoc; reflexivity |]); auto.
Qed.

Lemma V2_requests_shape (s : State) (env : Env) :
  truthy (trim (input s)) = true ->
  isLoading s = false ->
  let ask :=
    PostChatStream (trim (input s))
      (map (fun msg => mkMessage (role msg) (content msg) None)
         (messages s ++ [asked s])) in
  requests (V2.handleSubmit s env) = [ask]
  \/ exists c src rest,
       requests (V2.handleSubmit s env)
       = ask
         :: save_request s
              (messages s ++ [asked s; mkMessage assistant c (Some src)])
              (slice (trim (input s)) 0 20 ++ lit "...")
         :: rest
       /\ (rest = [] \/ rest = [GetHistories]).
Proof.
  intros Hin Hload ask. unfold V2.handleSubmit. rewrite Hin, Hload.
  cbv zeta. cbn [negb orb].
  destruct (fetch_chat env) as [resp|]; [| left; reflexivity].
  destruct (negb (ok resp)); [left; reflexivity |].
  destruct (body resp) as [b|]; [| left; reflexivity].
  match goal with
  | |- context [read_loop V2.on_line ?cs ?f
                  (V2.mkLocals [] (JSON.Array []) ?r1)] =>
      destruct (V2_loop_shape cs f r1
                  (messages s ++ [mkMessage user (trim (input s)) None])
                  eq_refl) as (t & c & src & so & e & rs & E);
      rewrite E; clear E
  end.
  destruct t; [left; reflexivity |]. right.
  cbn [V2.tempResponse V2.sources V2.run].
  match goal with
  | |- context [V2.saveOrUpdateChatHistory s env ?m ?t ?r] =>
      destruct (save_requests s env m t r) as (rest & Hreq & Hrest)
  end.
  exists c, src, rest. split; [| exact Hrest].
  cbn [requests setIsLoading setMessages]. 
  simpl requests. simpl requests in Hreq. rewrite Hreq.
  unfold asked. rewrite <- app_assoc. reflexivity.
Qed.

(** *** The requests of the first variant's [handleSubmit] in an open chat *)


End HandlerFacts.

(** ** The properties of the specification *)

Import JsString App Protocol Phases Examples JsStringFacts AppFacts LineFacts.




(** The byte order mark cannot be left out of the hypotheses: at the start
    of a chunk it is removed, inside a chunk it stays and hides the
    marker of its line. *)
Lemma mark_at_chunk_start_matters :
  concat mark_cut = concat mark_whole
  /\ last_message (messages (ui (V2.handleSubmit asking (serving mark_cut))))
     = Some (mkMessage assistant (lit "ab") (Some (JSON.Array [])))
  /\ last_message (messages (ui (V2.handleSubmit asking (serving mark_whole))))
     = Some (mkMessage assistant (lit "a") (Some (JSON.Array []))).
Proof. repeat split; vm_compute; reflexivity. Qed.

(** Nor can the condition on stop frames: a frame that follows [[DONE]]
    is read when it comes in a later chunk, and is not when it comes in
    the same chunk. *)
Lemma frame_after_done_matters :
  last_message
    (messages (ui (V2.handleSubmit asking (serving done_then_more))))
  = Some (mkMessage assistant (lit "ab") (Some (JSON.Array [])))
  /\ last_message
       (messages
          (ui (V2.handleSubmit asking (serving [concat done_then_more]))))
     = Some (mkMessage assistant (lit "a") (Some (JSON.Array []))).
Proof. split; vm_compute; reflexivity. Qed.

(** C2.  On the stream [data: Hello], the sources frame for [doc.pdf],
    [data: [DONE]], the second variant ends with the assistant message
    ["Hello"] carrying the one source; the first variant, which cuts the
    marker at five units instead of six, ends with the content
    [" Hello [DONE]"] and no source. *)
Theorem hello_stream_outcome :
  last_message (messages (ui (V2.handleSubmit asking (serving [hello_stream]))))
  = Some (mkMessage assistant (lit "Hello") (Some doc_pdf))
  /\ last_message
       (messages (ui (V1.handleSubmit asking (serving [hello_stream]))))
     = Some (mkMessage assistant (lit " Hello [DONE]")
               (Some (JSON.Array []))).
Proof. split; vm_compute; reflexivity. Qed.

(** C3.  On a sources frame that is not JSON followed by [data: [DONE]] the
    second variant leaves the loop through the exception of [JSON.parse]:
    the generic error is shown, the [DONE] frame is never reached, and the
    conversation is not saved.  The first variant shows no error. *)
Theorem malformed_sources_abort_second_variant :
  let r := V2.handleSubmit asking (serving [malformed_stream]) in
  error (ui r) = Some (text "聊天請求失敗，請稍後再試")
  /\ messages (ui r) = [question; mkMessage assistant [] None]
  /\ requests r = [PostChatStream (lit "hi") [question]]
  /\ error (ui (V1.handleSubmit asking (serving [malformed_stream]))) = None.
Proof. repeat split; vm_compute; reflexivity. Qed.

(** C4.  The first variant never attaches what a sources frame carried.
    Every value it gives to the message list ends with the assistant
    message whose sources are the empty array it was created with, and
    once the response is being read the run ends with that message,
    whatever the stream holds: also when it holds a sources frame and ends
    with [[DONE]]. *)
Theorem first_variant_never_attaches_sources (s : State) (env : Env)
    (b : Body) (cid : JsString.t) :
  truthy (trim (input s)) = true ->
  post_history env = Resolved cid ->
  fetch_chat env = Some (mkResponse true (Some b)) ->
  Forall V1_empty_sources (renders (V1.handleSubmit s env))
  /\ exists c,
       messages (ui (V1.handleSubmit s env))
       = messages s
         ++ [mkMessage user (trim (input s)) None;
             mkMessage assistant c (Some (JSON.Array []))].
Proof.
  intros Hin Hpost Hfetch. split.
  - apply V1Facts.handleSubmit_renders.
  - exact (V1Facts.handleSubmit_messages s env b cid Hin Hpost Hfetch).
Qed.

Lemma first_variant_never_attaches_sources_witness :
  Forall V1_empty_sources
    (renders (V1.handleSubmit asking (serving [hello_stream])))
  /\ exists c,
       messages (ui (V1.handleSubmit asking (serving [hello_stream])))
       = messages asking
         ++ [mkMessage user (trim (input asking)) None;
             mkMessage assistant c (Some (JSON.Array []))].
Proof.
  apply (first_variant_never_attaches_sources asking
           (serving [hello_stream]) (mkBody [hello_stream] false)
           (lit "c1"));
    reflexivity.
Defined.













(** C9.  In the first variant a frame whose payload mentions [[SOURCES]] or
    [[ERROR]] anywhere leaves the locals and the run as they were: nothing
    is appended to [tempResponse] and nothing is rendered. *)
Theorem first_variant_drops_marker_mentions (line : JsString.t)
    (l : V1.Locals) :
  is_frame line = true ->
  includes (payload line) (lit "[SOURCES]")
  || includes (payload line) (lit "[ERROR]") = true ->
  V1.on_line line l = (Continue, l).
Proof.
  intros Hf Hm. rewrite (V1_frame line l Hf). cbv zeta.
  apply orb_true_iff in Hm as [Hm | Hm];
    rewrite (includes_cons _ _ _ Hm); cbn [negb andb];
    rewrite ?andb_false_r; reflexivity.
Qed.

Lemma first_variant_drops_marker_mentions_witness :
  V1.on_line (lit "data: the backend may answer [ERROR] on overload") so_far
  = (Continue, so_far).
Proof.
  apply (first_variant_drops_marker_mentions
           (lit "data: the backend may answer [ERROR] on overload") so_far);
    reflexivity.
Defined.

(** C10.  Submitting the form while the input is empty or holds only white
    space does nothing, in both variants: the run ends in the state it
    started from (same messages, chat id and error), no request was sent
    and the message list was never set. *)
Theorem blank_input_is_ignored (s : State) (env : Env) :
  Forall (fun c => isWhiteSpace c = true) (input s) ->
  V1.handleSubmit s env = mkRun s [] []
  /\ V2.handleSubmit s env = mkRun s [] [].
Proof.
  intros H. unfold V1.handleSubmit, V2.handleSubmit.
  rewrite (trim_blank _ H). split; reflexivity.
Qed.

Lemma blank_input_is_ignored_witness :
  V1.handleSubmit blank_form (serving [hello_stream]) = mkRun blank_form [] []
  /\ V2.handleSubmit blank_form (serving [hello_stream])
     = mkRun blank_form [] [].
Proof.
  apply (blank_input_is_ignored blank_form (serving [hello_stream])).
  simpl. repeat constructor.
Defined.

(** ** Further properties of the handlers *)

Import Handlers Vocabulary Samples RunFacts TrimFacts.

(** The branches of [handleSubmit] of the first variant, one goal for each
    way it can end; in the goals that reach the loop, the loop is replaced
    by its shape. *)
Ltac v1_branches s env :=
  unfold V1.handleSubmit; cbv zeta;
  destruct (negb (truthy (trim (input s)))) eqn:?Hblank;
  [ | destruct (negb (truthy_opt (currentChatId s))) eqn:?Hid;
      [ destruct (post_history env) as [?cid | ?detail] eqn:?Hpost | ];
      try (destruct (fetch_chat env) as [?resp | ] eqn:?Hfetch;
           [ destruct (negb (ok resp)) eqn:?Hok;
             [ | destruct (body resp) as [?b | ] eqn:?Hbody ] | ]) ].

Ltac v1_loop s :=
  match goal with
  | |- context [read_loop V1.on_line ?cs ?f
                  (V1.mkLocals [] (JSON.Array []) ?r1)] =>
      let c := fresh "c" in
      let rs := fresh "rs" in
      let E := fresh "E" in
      destruct (V1_loop_shape cs f r1
                  (messages s ++ [mkMessage user (trim (input s)) None])
                  (snoc_two _ _ _)) as (c & rs & E);
      rewrite E; clear E
  end.

Ltac v2_branches s env :=
  unfold V2.handleSubmit; cbv zeta;
  destruct (negb (truthy (trim (input s))) || isLoading s) eqn:?Hblank;
  [ | destruct (fetch_chat env) as [?resp | ] eqn:?Hfetch;
      [ destruct (negb (ok resp)) eqn:?Hok;
        [ | destruct (body resp) as [?b | ] eqn:?Hbody ] | ] ].

Ltac v2_loop s :=
  match goal with
  | |- context [read_loop V2.on_line ?cs ?f
                  (V2.mkLocals [] (JSON.Array []) ?r1)] =>
      let t := fresh "t" in
      let c := fresh "c" in
      let src := fresh "src" in
      let so := fresh "so" in
      let e := fresh "e" in
      let rs := fresh "rs" in
      let E := fresh "E" in
      destruct (V2_loop_shape cs f r1
                  (messages s ++ [mkMessage user (trim (input s)) None])
                  eq_refl) as (t & c & src & so & e & rs & E);
      rewrite E; clear E
  end.

Ltac split_cases :=
  repeat match goal with
         | |- context [match ?x with _ => _ end] => destruct x eqn:?
         end.

(** X1.  A submit that is accepted leaves the form ready for the next
    one, however it ends: the input is empty and [isLoading] is false.
    The second variant accepts a submit only while it is not loading. *)
Theorem accepted_submit_resets_form (s : State) (env : Env) :
  truthy (trim (input s)) = true ->
  (input (ui (V1.handleSubmit s env)) = []
   /\ isLoading (ui (V1.handleSubmit s env)) = false)
  /\ (isLoading s = false ->
      input (ui (V2.handleSubmit s env)) = []
      /\ isLoading (ui (V2.handleSubmit s env)) = false).
Proof.
  intros Hin. split.
  - v1_branches s env; try (rewrite Hin in *; discriminate);
      try v1_loop s; try destruct (read_fails b);
      unfold V1.on_catch, V1.update_chat, fetchChatHistories;
      split_cases; split; reflexivity.
  - intros Hload.
    v2_branches s env;
      try (rewrite Hin, Hload in *; discriminate);
      try v2_loop s; try destruct t;
      unfold V2.on_catch, V2.saveOrUpdateChatHistory, fetchChatHistories;
      split_cases; split; reflexivity.
Qed.

Lemma accepted_submit_resets_form_witness :
  (input (ui (V1.handleSubmit mid_chat (serving [hello_stream]))) = []
   /\ isLoading (ui (V1.handleSubmit mid_chat (serving [hello_stream])))
      = false)
  /\ (input (ui (V2.handleSubmit mid_chat (serving [hello_stream]))) = []
      /\ isLoading (ui (V2.handleSubmit mid_chat (serving [hello_stream])))
         = false).
Proof.
  destruct (accepted_submit_resets_form mid_chat (serving [hello_stream])
              eq_refl) as [H1 H2].
  split; [exact H1 | exact (H2 eq_refl)].
Defined.

(** X2.  The query of every chat request is the input with the white
    space around it removed: it is not empty and neither starts nor ends
    with white space, in both variants. *)
Theorem query_is_trimmed_input (s : State) (env : Env) :
  Forall (asks_trimmed s) (requests (V1.handleSubmit s env))
  /\ Forall (asks_trimmed s) (requests (V2.handleSubmit s env)).
Proof.
  assert (truthy (trim (input s)) = true -> forall h,
          asks_trimmed s (PostChatStream (trim (input s)) h)) as Hask.
  { intros Hin h. repeat split; [exact Hin | apply trim_ends_clean]. }
  split.
  - v1_branches s env; [constructor | ..];
      apply negb_false_iff in Hblank;
      try v1_loop s; try destruct (read_fails b);
      unfold V1.on_catch, V1.update_chat, fetchChatHistories;
      split_cases; simpl;
      repeat (constructor; try exact I; try (apply Hask; exact Hblank)).
  - v2_branches s env; [constructor | ..];
      apply orb_false_iff in Hblank as [Hblank _];
      apply negb_false_iff in Hblank;
      try v2_loop s; try destruct t;
      unfold V2.on_catch, V2.saveOrUpdateChatHistory, fetchChatHistories;
      split_cases; simpl;
      repeat (constructor; try exact I; try (apply Hask; exact Hblank)).
Qed.

(** X3.  Every history request of [handleSubmit] carries a title of at
    most 33 units in the first variant and 23 in the second, and the
    title ends with three dots. *)
Theorem history_titles_are_short (s : State) (env : Env) :
  Forall (short_title 30) (requests (V1.handleSubmit s env))
  /\ Forall (short_title 20) (requests (V2.handleSubmit s env)).
Proof.
  split.
  - v1_branches s env; [constructor | ..];
      try v1_loop s; try destruct (read_fails b);
      unfold V1.on_catch, V1.update_chat, fetchChatHistories;
      split_cases; simpl;
      repeat (constructor; try exact I;
              try apply (title_is_short _ 30);
              try (split; [simpl; lia | reflexivity])).
  - v2_branches s env; [constructor | ..];
      try v2_loop s; try destruct t;
      unfold V2.on_catch, V2.saveOrUpdateChatHistory, fetchChatHistories;
      split_cases; simpl;
      repeat (constructor; try exact I;
              try apply (title_is_short _ 20)).
Qed.

(** X4.  In the first variant a submit made while no chat is open creates
    the chat with the user message alone and never sends the answer to
    the backend: the run issues that creation, then the chat request,
    and nothing else. *)
Theorem first_variant_new_chat_is_not_saved (s : State) (env : Env) :
  truthy_opt (currentChatId s) = false ->
  let create :=
    PostHistory [asked s] (slice (trim (input s)) 0 30 ++ lit "...") in
  let ask := PostChatStream (trim (input s)) (messages s) in
  requests (V1.handleSubmit s env) = []
  \/ requests (V1.handleSubmit s env) = [create]
  \/ requests (V1.handleSubmit s env) = [create; ask].
Proof.
  intros Hnone create ask.
  v1_branches s env; try (rewrite Hnone in *; discriminate);
    try v1_loop s; try destruct (read_fails b);
    unfold V1.on_catch, V1.update_chat, fetchChatHistories;
    try (destruct (currentChatId s) as [cid0|] eqn:Hc;
         [simpl in Hnone; rewrite Hnone |]);
    simpl; auto.
Qed.

Lemma first_variant_new_chat_is_not_saved_witness :
  requests (V1.handleSubmit asking (serving [hello_stream])) = []
  \/ requests (V1.handleSubmit asking (serving [hello_stream]))
     = [PostHistory [asked asking]
          (slice (trim (input asking)) 0 30 ++ lit "...")]
  \/ requests (V1.handleSubmit asking (serving [hello_stream]))
     = [PostHistory [asked asking]
          (slice (trim (input asking)) 0 30 ++ lit "...");
        PostChatStream (trim (input asking)) (messages asking)].
Proof.
  apply (first_variant_new_chat_is_not_saved asking
           (serving [hello_stream])).
  reflexivity.
Defined.

(** X5.  In the second variant, when the stream was read to its end, what
    is saved is what is shown: the run issues the chat request and then
    one history request that carries exactly the final message list (and
    the reload of the history list when the save succeeded). *)
Theorem second_variant_saves_what_it_shows (s : State) (env : Env)
    (b : Body) :
  truthy (trim (input s)) = true ->
  isLoading s = false ->
  fetch_chat env = Some (mkResponse true (Some b)) ->
  fst (read_loop V2.on_line (chunks b) (read_fails b)
         (V2.mkLocals [] (JSON.Array []) (V2_opening s))) = false ->
  exists ask save,
    saves (messages (ui (V2.handleSubmit s env))) save
    /\ (requests (V2.handleSubmit s env) = [ask; save]
        \/ requests (V2.handleSubmit s env) = [ask; save; GetHistories]).
Proof.
  intros Hin Hload Hfetch Hloop.
  rewrite (V2Facts.handleSubmit_phases s env b Hin Hload Hfetch).
  revert Hloop.
  destruct (V2_loop_shape (chunks b) (read_fails b) (V2_opening s)
              (messages s ++ [mkMessage user (trim (input s)) None])
              eq_refl) as (t & c & src & so & e & rs & E).
  rewrite E. cbn [fst]. intros ->.
  unfold V2_closing, V2.saveOrUpdateChatHistory, fetchChatHistories.
  cbv zeta. split_cases; simpl; eexists; eexists;
    (split; [| (left; reflexivity) || (right; reflexivity)]);
    reflexivity.
Qed.

Lemma second_variant_saves_what_it_shows_witness :
  exists ask save,
    saves (messages (ui (V2.handleSubmit mid_chat (serving [hello_stream]))))
      save
    /\ (requests (V2.handleSubmit mid_chat (serving [hello_stream]))
        = [ask; save]
        \/ requests (V2.handleSubmit mid_chat (serving [hello_stream]))
           = [ask; save; GetHistories]).
Proof.
  apply (second_variant_saves_what_it_shows mid_chat
           (serving [hello_stream]) (mkBody [hello_stream] false));
    reflexivity.
Defined.

(** X6.  In the second variant, when the loop is left by an exception (a
    sources frame that is not JSON, a failed read), nothing is saved: the
    chat request is the only request of the run, and the generic error is
    shown. *)
Theorem second_variant_failed_stream_is_not_saved (s : State) (env : Env)
    (b : Body) :
  truthy (trim (input s)) = true ->
  isLoading s = false ->
  fetch_chat env = Some (mkResponse true (Some b)) ->
  fst (read_loop V2.on_line (chunks b) (read_fails b)
         (V2.mkLocals [] (JSON.Array []) (V2_opening s))) = true ->
  requests (V2.handleSubmit s env)
  = [PostChatStream (trim (input s))
       (map (fun msg => mkMessage (role msg) (content msg) None)
          (messages s ++ [asked s]))]
  /\ error (ui (V2.handleSubmit s env))
     = Some (text "聊天請求失敗，請稍後再試").
Proof.
  intros Hin Hload Hfetch Hloop.
  rewrite (V2Facts.handleSubmit_phases s env b Hin Hload Hfetch).
  revert Hloop.
  destruct (V2_loop_shape (chunks b) (read_fails b) (V2_opening s)
              (messages s ++ [mkMessage user (trim (input s)) None])
              eq_refl) as (t & c & src & so & e & rs & E).
  rewrite E. cbn [fst]. intros ->. split; reflexivity.
Qed.

Lemma second_variant_failed_stream_is_not_saved_witness :
  requests (V2.handleSubmit mid_chat (serving [malformed_stream]))
  = [PostChatStream (trim (input mid_chat))
       (map (fun msg => mkMessage (role msg) (content msg) None)
          (messages mid_chat ++ [asked mid_chat]))]
  /\ error (ui (V2.handleSubmit mid_chat (serving [malformed_stream])))
     = Some (text "聊天請求失敗，請稍後再試").
Proof.
  apply (second_variant_failed_stream_is_not_saved mid_chat
           (serving [malformed_stream]) (mkBody [malformed_stream] false));
    reflexivity.
Defined.

(** X7.  In the first variant nothing a stream holds can show an error:
    when the backend answers every request and the stream is read to its
    end, the run ends with no error, whatever the chunks are. *)
Theorem first_variant_stream_shows_no_error (s : State) (env : Env)
    (cs : list (list byte)) (cid : JsString.t) :
  truthy (trim (input s)) = true ->
  post_history env = Resolved cid ->
  put_history env = Resolved tt ->
  fetch_chat env = Some (mkResponse true (Some (mkBody cs false))) ->
  error (ui (V1.handleSubmit s env)) = None.
Proof.
  intros Hin Hpost Hput Hfetch.
  v1_branches s env; try (rewrite Hin in *; discriminate);
    try congruence;
    injection Hfetch as ->; simpl in *; try discriminate;
    injection Hbody as <-;
    v1_loop s; cbn [read_fails];
    unfold V1.update_chat, fetchChatHistories; rewrite Hput;
    split_cases; reflexivity.
Qed.

Lemma first_variant_stream_shows_no_error_witness :
  error (ui (V1.handleSubmit mid_chat (serving error_stream))) = None.
Proof.
  apply (first_variant_stream_shows_no_error mid_chat (serving error_stream)
           error_stream (lit "c1"));
    reflexivity.
Defined.

(** X8.  The first variant never shows the sources panel for an answer it
    has streamed: the panel renders nothing for every value the message
    list takes during [handleSubmit], and for the list the run ends with
    once the response was being read. *)
Theorem first_variant_hides_sources_panel (s : State) (env : Env)
    (b : Body) (cid : JsString.t) :
  truthy (trim (input s)) = true ->
  post_history env = Resolved cid ->
  fetch_chat env = Some (mkResponse true (Some b)) ->
  Forall (fun ms => V1_sources_panel ms = None)
    (renders (V1.handleSubmit s env))
  /\ V1_sources_panel (messages (ui (V1.handleSubmit s env))) = None.
Proof.
  intros Hin Hpost Hfetch.
  assert (forall ms, V1_empty_sources ms -> V1_sources_panel ms = None)
    as Hpanel.
  { intros ms [c Hc]. unfold V1_sources_panel.
    unfold last_message in Hc. rewrite Hc. reflexivity. }
  split.
  - eapply Forall_impl; [exact Hpanel |].
    apply V1Facts.handleSubmit_renders.
  - destruct (V1Facts.handleSubmit_messages s env b cid Hin Hpost Hfetch)
      as [c Hc].
    apply Hpanel. exists c. rewrite Hc, snoc_two.
    apply last_message_snoc.
Qed.

Lemma first_variant_hides_sources_panel_witness :
  Forall (fun ms => V1_sources_panel ms = None)
    (renders (V1.handleSubmit asking (serving [hello_stream])))
  /\ V1_sources_panel
       (messages (ui (V1.handleSubmit asking (serving [hello_stream]))))
     = None.
Proof.
  apply (first_variant_hides_sources_panel asking (serving [hello_stream])
           (mkBody [hello_stream] false) (lit "c1"));
    reflexivity.
Defined.

Import HandlerFacts.



(** X10.  Second variant, [startNewChat] followed by a submit: the chat
    request carries the new user message as its whole history, and when
    the answer is saved it is saved as a new conversation of two
    messages, never as an update of the chat that was open before. *)
Theorem second_variant_new_chat_starts_afresh (x : Session)
    (value : JsString.t) (env : Env) :
  isLoading (state (page x)) = false ->
  truthy (trim value) = true ->
  let s1 := typing value (state (page (V2_startNewChat x))) in
  let ask :=
    PostChatStream (trim value) [mkMessage user (trim value) None] in
  requests (V2.handleSubmit s1 env) = [ask]
  \/ exists c src rest,
       requests (V2.handleSubmit s1 env)
       = ask
         :: PostHistory
              [mkMessage user (trim value) None;
               mkMessage assistant c (Some src)]
              (slice (trim value) 0 20 ++ lit "...")
         :: rest
       /\ (rest = [] \/ rest = [GetHistories]).
Proof.
  intros Hload Hin s1 ask.
  destruct (V2_requests_shape s1 env Hin Hload) as [H | H].
  - left. exact H.
  - right. exact H.
Qed.

Lemma second_variant_new_chat_starts_afresh_witness :
  requests
    (V2.handleSubmit
       (typing (lit " next ") (state (page (V2_startNewChat (page_with [])))))
       (serving [hello_stream]))
  = [PostChatStream (trim (lit " next "))
       [mkMessage user (trim (lit " next ")) None]]
  \/ exists c src rest,
       requests
         (V2.handleSubmit
            (typing (lit " next ")
               (state (page (V2_startNewChat (page_with [])))))
            (serving [hello_stream]))
       = PostChatStream (trim (lit " next "))
           [mkMessage user (trim (lit " next ")) None]
         :: PostHistory
              [mkMessage user (trim (lit " next ")) None;
               mkMessage assistant c (Some src)]
              (slice (trim (lit " next ")) 0 20 ++ lit "...")
         :: rest
       /\ (rest = [] \/ rest = [GetHistories]).
Proof.
  apply (second_variant_new_chat_starts_afresh (page_with [])
           (lit " next ") (serving [hello_stream]));
    reflexivity.
Defined.

(** X11.  Second variant, [loadChatHistory]: switching from an open,
    non-empty conversation to another chat first saves the open one, with
    its messages as shown and the document title without its prefix, and
    only then asks for the other chat. *)
Theorem switching_chat_saves_the_open_one (chatId cid : JsString.t)
    (env : Backend) (x : Session) :
  currentChatId (state (page x)) = Some cid ->
  truthy cid = true ->
  JsString.eqb cid chatId = false ->
  messages (state (page x)) <> [] ->
  exists rest,
    calls (V2_loadChatHistory chatId env x)
    = calls x
      ++ Chat (PutHistory cid (messages (state (page x)))
                 (replace (document_title (page x)) (lit "RAG - ") []))
         :: rest ++ [GetHistory chatId]
    /\ (rest = [] \/ rest = [Chat GetHistories]).
Proof.
  intros Hid Hcid Hother Hms. unfold V2_loadChatHistory. cbv zeta.
  rewrite Hid. cbn [same_chat truthy_opt]. rewrite Hother, Hcid.
  destruct (messages (state (page x))) as [|m ms] eqn:Emsgs;
    [contradiction |].
  cbn [length Nat.eqb negb andb].
  unfold V2.saveOrUpdateChatHistory, fetchChatHistories.
  rewrite Hid, Hcid.
  destruct (put_history (chat env)), (get_histories (chat env)),
    (get_history env) as [[?|] | ?];
    try destruct (find _ _);
    simpl; rewrite ?app_nil_r, <- ?app_assoc; simpl;
    first [ exists [Chat GetHistories]; split; [reflexivity | auto]
          | exists []; split; [reflexivity | auto] ].
Qed.

Lemma switching_chat_saves_the_open_one_witness :
  exists rest,
    calls (V2_loadChatHistory (lit "c2") backend (page_with []))
    = calls (page_with [])
      ++ Chat (PutHistory (lit "c1")
                 (messages (state (page (page_with []))))
                 (replace (document_title (page (page_with [])))
                    (lit "RAG - ") []))
         :: rest ++ [GetHistory (lit "c2")]
    /\ (rest = [] \/ rest = [Chat GetHistories]).
Proof.
  apply (switching_chat_saves_the_open_one (lit "c2") (lit "c1") backend
           (page_with []));
    [reflexivity | reflexivity | reflexivity | discriminate].
Defined.

(** X12.  Second variant, [loadChatHistory]: a click on the chat that is
    open, or a load that the backend refuses, leaves the conversation,
    its chat id and the document title as they were, and ends with
    [isLoading] false; the refused load shows its error. *)
Theorem failed_load_keeps_conversation (chatId : JsString.t)
    (env : Backend) (x : Session) :
  same_chat (currentChatId (state (page x))) chatId = true
  \/ (exists detail, get_history env = Rejected detail) ->
  let y := V2_loadChatHistory chatId env x in
  messages (state (page y)) = messages (state (page x))
  /\ currentChatId (state (page y)) = currentChatId (state (page x))
  /\ document_title (page y) = document_title (page x)
  /\ files (page y) = files (page x)
  /\ isLoading (state (page y)) = false
  /\ (same_chat (currentChatId (state (page x))) chatId = false ->
      error (state (page y)) = Some (text "載入對話歷史失敗")).
Proof.
  intros H. unfold V2_loadChatHistory. cbv zeta.
  destruct (same_chat (currentChatId (state (page x))) chatId) eqn:Esame.
  - repeat split. discriminate.
  - destruct H as [H | [detail Hget]]; [discriminate |]. rewrite Hget.
    unfold V2.saveOrUpdateChatHistory, fetchChatHistories.
    destruct (currentChatId (state (page x))) as [cid|] eqn:Eid;
      cbn [truthy_opt]; [destruct (truthy cid) eqn:Ecid |];
      cbn [andb]; try destruct (negb _);
      destruct (put_history (chat env)), (get_histories (chat env));
      simpl; rewrite ?Eid; repeat split.
Qed.

Lemma failed_load_keeps_conversation_witness :
  messages (state (page (V2_loadChatHistory (lit "c2") offline
                           (page_with []))))
  = messages (state (page (page_with [])))
  /\ currentChatId (state (page (V2_loadChatHistory (lit "c2") offline
                                   (page_with []))))
     = currentChatId (state (page (page_with [])))
  /\ document_title (page (V2_loadChatHistory (lit "c2") offline
                             (page_with [])))
     = document_title (page (page_with []))
  /\ files (page (V2_loadChatHistory (lit "c2") offline (page_with [])))
     = files (page (page_with []))
  /\ isLoading (state (page (V2_loadChatHistory (lit "c2") offline
                               (page_with []))))
     = false
  /\ (same_chat (currentChatId (state (page (page_with [])))) (lit "c2")
      = false ->
      error (state (page (V2_loadChatHistory (lit "c2") offline
                            (page_with []))))
      = Some (text "載入對話歷史失敗")).
Proof.
  apply (failed_load_keeps_conversation (lit "c2") offline (page_with [])).
  right. exists (lit "Network Error"). reflexivity.
Defined.

(** X13.  Second variant, [loadChatHistory] followed by a submit: after a
    chat was loaded, the chat request carries the loaded messages and
    the new one, and the answer is saved as an update of the loaded chat,
    with the loaded messages in front. *)
Theorem loaded_chat_is_continued (chatId value : JsString.t)
    (env : Backend) (env' : Env) (x : Session)
    (data : option (list Message)) :
  same_chat (currentChatId (state (page x))) chatId = false ->
  truthy chatId = true ->
  get_history env = Resolved data ->
  truthy (trim value) = true ->
  let loaded := match data with Some ms => ms | None => [] end in
  let s1 := typing value (state (page (V2_loadChatHistory chatId env x))) in
  let new := mkMessage user (trim value) None in
  let ask :=
    PostChatStream (trim value)
      (map (fun msg => mkMessage (role msg) (content msg) None)
         (loaded ++ [new])) in
  requests (V2.handleSubmit s1 env') = [ask]
  \/ exists c src rest,
       requests (V2.handleSubmit s1 env')
       = ask
         :: PutHistory chatId
              (loaded ++ [new; mkMessage assistant c (Some src)])
              (slice (trim value) 0 20 ++ lit "...")
         :: rest
       /\ (rest = [] \/ rest = [GetHistories]).
Proof.
  intros Hother Hcid Hget Hin loaded s1 new ask.
  assert (messages s1 = loaded /\ currentChatId s1 = Some chatId
          /\ isLoading s1 = false /\ input s1 = value)
    as (Hms & Hid & Hload & Hval).
  { subst s1 loaded. unfold V2_loadChatHistory. cbv zeta.
    rewrite Hother, Hget.
    destruct (truthy_opt _ && negb _);
      destruct (find _ _); repeat split. }
  rewrite <- Hval in Hin.
  destruct (V2_requests_shape s1 env' Hin Hload) as [H | H].
  - left. rewrite H. subst ask new. unfold asked.
    rewrite Hms, Hval. reflexivity.
  - right. destruct H as (c & src & rest & Hreq & Hrest).
    exists c, src, rest. split; [| exact Hrest].
    rewrite Hreq. unfold save_request, asked. rewrite Hid, Hcid, Hms, Hval.
    reflexivity.
Qed.

Lemma loaded_chat_is_continued_witness :
  requests
    (V2.handleSubmit
       (typing (lit "more")
          (state (page (V2_loadChatHistory (lit "c2") backend
                          (page_with [])))))
       (serving [hello_stream]))
  = [PostChatStream (trim (lit "more"))
       (map (fun msg => mkMessage (role msg) (content msg) None)
          ([question] ++ [mkMessage user (trim (lit "more")) None]))]
  \/ exists c src rest,
       requests
         (V2.handleSubmit
            (typing (lit "more")
               (state (page (V2_loadChatHistory (lit "c2") backend
                               (page_with [])))))
            (serving [hello_stream]))
       = PostChatStream (trim (lit "more"))
           (map (fun msg => mkMessage (role msg) (content msg) None)
              ([question] ++ [mkMessage user (trim (lit "more")) None]))
         :: PutHistory (lit "c2")
              ([question]
               ++ [mkMessage user (trim (lit "more")) None;
                   mkMessage assistant c (Some src)])
              (slice (trim (lit "more")) 0 20 ++ lit "...")
         :: rest
       /\ (rest = [] \/ rest = [GetHistories]).
Proof.
  apply (loaded_chat_is_continued (lit "c2") (lit "more") backend
           (serving [hello_stream]) (page_with []) (Some [question]));
    reflexivity.
Defined.

(** X14.  [handleFileUpload] decides whether to clear the error from the
    file list of the render in which the files were picked: when that
    list has no failed entry, the run ends with no error shown and
    [isLoading] false, also when uploads of this run failed. *)
Theorem upload_errors_are_cleared (fs : list File) (env : Backend)
    (x : Session) :
  existsb is_errored (files (page x)) = false ->
  error (state (page (handleFileUpload (Some fs) env x))) = None
  /\ isLoading (state (page (handleFileUpload (Some fs) env x))) = false.
Proof.
  intros Hnone. unfold handleFileUpload. cbv zeta.
  destruct (upload_loop env fs 0 false _) as [u y]. rewrite Hnone.
  destruct u; unfold fetchUploadedFiles; try destruct (get_files env);
    split; reflexivity.
Qed.

Lemma upload_errors_are_cleared_witness :
  error (state (page (handleFileUpload (Some picked) offline
                        (page_with []))))
  = None
  /\ isLoading (state (page (handleFileUpload (Some picked) offline
                               (page_with []))))
     = false.
Proof.
  apply (upload_errors_are_cleared picked offline (page_with [])).
  reflexivity.
Defined.

(** X15.  [handleFileUpload]: when the file list held a failed entry at
    the time the files were picked and every upload of the run succeeds,
    the notice that files are being processed is still shown when the
    run is over. *)
Theorem upload_notice_stays (fs : list File) (env : Backend)
    (x : Session) :
  existsb is_errored (files (page x)) = true ->
  forallb (uploaded env) (seq 0 (length fs)) = true ->
  error (state (page (handleFileUpload (Some fs) env x)))
  = Some (text "正在處理文件...")
  /\ isLoading (state (page (handleFileUpload (Some fs) env x))) = false.
Proof.
  intros Hsome Hall. unfold handleFileUpload. cbv zeta. rewrite Hsome.
  cbn [negb].
  match goal with
  | |- context [upload_loop env fs 0 false ?x0] =>
      pose proof (upload_loop_quiet env fs 0 false x0) as Hquiet;
      destruct (upload_loop env fs 0 false x0) as [u y]
  end.
  cbn [snd] in Hquiet.
  assert (error (state (page y)) = Some (text "正在處理文件...")) as Herr.
  { rewrite Hquiet; [reflexivity |]. intros j Hj.
    rewrite forallb_forall in Hall. apply Hall. apply in_seq. lia. }
  destruct u; unfold fetchUploadedFiles; try destruct (get_files env);
    split; try reflexivity; exact Herr.
Qed.

Lemma upload_notice_stays_witness :
  error (state (page (handleFileUpload (Some picked) accepting
                        (page_with [listed (lit "old") (Some errored)]))))
  = Some (text "正在處理文件...")
  /\ isLoading (state (page (handleFileUpload (Some picked) accepting
                               (page_with
                                  [listed (lit "old") (Some errored)]))))
     = false.
Proof.
  apply (upload_notice_stays picked accepting
           (page_with [listed (lit "old") (Some errored)]));
    reflexivity.
Defined.

(** X16.  [handleFileUpload] leaves no entry of its own in the state
    [uploading]: an entry that is still uploading when the run is over
    was in the list before, or is in the list the backend returned. *)
Theorem upload_leaves_nothing_uploading (fs : list File) (env : Backend)
    (x : Session) (f : FileInfo) :
  In f (files (page (handleFileUpload (Some fs) env x))) ->
  is_uploading f = true ->
  In f (files (page x))
  \/ exists data, get_files env = Resolved data /\ In f data.
Proof.
  unfold handleFileUpload. cbv zeta.
  match goal with
  | |- context [upload_loop env fs 0 false ?x0] =>
      pose proof (upload_loop_settles env fs 0 false x0 (files (page x))
                    (fun g Hg _ => Hg) f) as Hsettle;
      destruct (upload_loop env fs 0 false x0) as [u y]
  end.
  cbn [snd] in Hsettle.
  assert (forall z : Session,
            files (page (if negb (existsb is_errored (files (page x)))
                         then lift (setError None)
                                (lift (setIsLoading false) z)
                         else lift (setIsLoading false) z))
            = files (page z)) as Hfiles.
  { intros z. destruct (negb _); reflexivity. }
  rewrite Hfiles. intros Hin Hup.
  destruct u; [unfold fetchUploadedFiles in Hin;
               destruct (get_files env) as [data|] |];
    simpl in Hin.
  - right. exists data. split; [reflexivity | exact Hin].
  - left. apply Hsettle; assumption.
  - left. apply Hsettle; assumption.
Qed.

Lemma upload_leaves_nothing_uploading_witness :
  In (listed (lit "old") (Some uploading))
    (files (page (page_with [listed (lit "old") (Some uploading)])))
  \/ exists data,
       get_files offline = Resolved data
       /\ In (listed (lit "old") (Some uploading)) data.
Proof.
  apply (upload_leaves_nothing_uploading picked offline
           (page_with [listed (lit "old") (Some uploading)])
           (listed (lit "old") (Some uploading)));
    [vm_compute; left; reflexivity | reflexivity].
Defined.

(** X17.  [handleFileUpload] sends one upload per picked file, in the
    order of the selection and also after a failure, and then asks for
    the file list once exactly when at least one upload succeeded. *)
Theorem uploads_go_on_after_a_failure (fs : list File) (env : Backend)
    (x : Session) :
  calls (handleFileUpload (Some fs) env x)
  = calls x ++ map PostUpload fs
    ++ (if any_uploaded env 0 (length fs) then [GetFiles] else []).
Proof.
  unfold handleFileUpload. cbv zeta.
  match goal with
  | |- context [upload_loop env fs 0 false ?x0] =>
      pose proof (upload_loop_calls env fs 0 false x0) as Hcalls;
      pose proof (upload_loop_flag env fs 0 false x0) as Hflag;
      destruct (upload_loop env fs 0 false x0) as [u y]
  end.
  cbn [fst snd orb] in Hcalls, Hflag. rewrite <- Hflag.
  rewrite calls_lift_setError, calls_lift_setIsLoading in Hcalls.
  assert (forall z : Session,
            calls (if negb (existsb is_errored (files (page x)))
                   then lift (setError None) (lift (setIsLoading false) z)
                   else lift (setIsLoading false) z)
            = calls z) as Hquiet.
  { intros z. destruct (negb _);
      rewrite ?calls_lift_setError, calls_lift_setIsLoading; reflexivity. }
  rewrite Hquiet.
  destruct u; [unfold fetchUploadedFiles; destruct (get_files env) |];
    simpl; rewrite Hcalls, <- ?app_assoc, ?app_nil_r; reflexivity.
Qed.

(** X18.  [handleFileUpload]: when every upload fails, each picked file
    leaves one entry at the end of the file list, in the order of the
    selection and under the name of the file, and the entries that were
    there keep their place. *)
Theorem failed_uploads_stay_listed (fs : list File) (env : Backend)
    (x : Session) :
  any_uploaded env 0 (length fs) = false ->
  map display_name (files (page (handleFileUpload (Some fs) env x)))
  = map display_name (files (page x))
    ++ map (fun file => Some (file_name file)) fs.
Proof.
  intros Hall. unfold handleFileUpload. cbv zeta.
  match goal with
  | |- context [upload_loop env fs 0 false ?x0] =>
      pose proof (upload_loop_failures env fs 0 false x0) as Hfail;
      pose proof (upload_loop_flag env fs 0 false x0) as Hflag;
      destruct (upload_loop env fs 0 false x0) as [u y]
  end.
  cbn [fst snd orb] in Hfail, Hflag. rewrite Hall in Hflag. subst u.
  destruct (negb _); simpl; apply Hfail; intros j Hj;
    unfold any_uploaded in Hall;
    destruct (uploaded env j) eqn:Ej; try reflexivity;
    (assert (existsb (uploaded env) (seq 0 (length fs)) = true) as Hex
       by (apply existsb_exists; exists j; split;
           [apply in_seq; lia | exact Ej]));
    congruence.
Qed.

Lemma failed_uploads_stay_listed_witness :
  map display_name
    (files (page (handleFileUpload (Some picked) offline
                    (page_with [listed (lit "old") None]))))
  = map display_name (files (page (page_with [listed (lit "old") None])))
    ++ map (fun file => Some (file_name file)) picked.
Proof.
  apply (failed_uploads_stay_listed picked offline
           (page_with [listed (lit "old") None])).
  reflexivity.
Defined.

(** X19.  [removeFile] on an entry of the list whose deletion the backend
    accepts: one delete request for the name of that entry, then the
    statistics are asked for; the list loses the entry at that index and
    no other, and the conversation is untouched. *)
Theorem removeFile_removes_that_entry (index : nat) (env : Backend)
    (x : Session) (f : FileInfo) :
  nth_error (files (page x)) index = Some f ->
  delete_file env = Resolved tt ->
  files (page (removeFile index env x))
  = firstn index (files (page x)) ++ skipn (S index) (files (page x))
  /\ calls (removeFile index env x)
     = calls x ++ [DeleteFile (name f); GetStats]
  /\ state (page (removeFile index env x)) = state (page x).
Proof.
  intros Hnth Hdel. unfold removeFile, loadVectorStoreStats.
  rewrite Hnth, Hdel.
  assert (filter_index (fun i => negb (Nat.eqb i index)) 0 (files (page x))
          = firstn index (files (page x))
            ++ skipn (S index) (files (page x))) as Hfilter.
  { apply filter_index_skips. reflexivity. }
  destruct (get_stats env); simpl; rewrite Hfilter, <- app_assoc;
    repeat split.
Qed.

Lemma removeFile_removes_that_entry_witness :
  files (page (removeFile 1 backend
                 (page_with [listed (lit "a") None; listed (lit "b") None;
                             listed (lit "c") None])))
  = firstn 1 (files (page (page_with
                             [listed (lit "a") None; listed (lit "b") None;
                              listed (lit "c") None])))
    ++ skipn 2 (files (page (page_with
                               [listed (lit "a") None;
                                listed (lit "b") None;
                                listed (lit "c") None])))
  /\ calls (removeFile 1 backend
              (page_with [listed (lit "a") None; listed (lit "b") None;
                          listed (lit "c") None]))
     = calls (page_with [listed (lit "a") None; listed (lit "b") None;
                         listed (lit "c") None])
       ++ [DeleteFile (name (listed (lit "b") None)); GetStats]
  /\ state (page (removeFile 1 backend
                    (page_with [listed (lit "a") None;
                                listed (lit "b") None;
                                listed (lit "c") None])))
     = state (page (page_with [listed (lit "a") None; listed (lit "b") None;
                               listed (lit "c") None])).
Proof.
  apply (removeFile_removes_that_entry 1 backend
           (page_with [listed (lit "a") None; listed (lit "b") None;
                       listed (lit "c") None])
           (listed (lit "b") None));
    reflexivity.
Defined.

(** X20.  [removeFile] with an index beyond the list sends nothing, and
    a deletion the backend refuses is not followed by any other request;
    in both cases the file list stays as it was and an error is shown. *)
Theorem removeFile_failure_keeps_the_list (index : nat) (env : Backend)
    (x : Session) :
  nth_error (files (page x)) index = None
  \/ (exists detail, delete_file env = Rejected detail) ->
  files (page (removeFile index env x)) = files (page x)
  /\ error (state (page (removeFile index env x))) <> None
  /\ Forall (fun c => exists n, c = DeleteFile n)
       (skipn (length (calls x)) (calls (removeFile index env x)))
  /\ (nth_error (files (page x)) index = None ->
      calls (removeFile index env x) = calls x).
Proof.
  intros H. unfold removeFile.
  assert (forall (l : list Call) c, skipn (length l) ((l ++ [c]) ++ [])
                                    = [c]) as Hskip.
  { intros l c. rewrite app_nil_r.
    rewrite skipn_app, skipn_all, Nat.sub_diag. reflexivity. }
  destruct (nth_error (files (page x)) index) as [f|] eqn:Hnth.
  - destruct H as [H | [detail Hdel]]; [discriminate |]. rewrite Hdel.
    simpl. rewrite Hskip.
    repeat split; try discriminate.
    constructor; [eexists; reflexivity | constructor].
  - simpl. rewrite app_nil_r, skipn_all.
    repeat split; try discriminate. constructor.
Qed.

Lemma removeFile_failure_keeps_the_list_witness :
  files (page (removeFile 5 backend (page_with [listed (lit "a") None])))
  = files (page (page_with [listed (lit "a") None]))
  /\ error (state (page (removeFile 5 backend
                           (page_with [listed (lit "a") None]))))
     <> None
  /\ Forall (fun c => exists n, c = DeleteFile n)
       (skipn (length (calls (page_with [listed (lit "a") None])))
          (calls (removeFile 5 backend
                    (page_with [listed (lit "a") None]))))
  /\ (nth_error (files (page (page_with [listed (lit "a") None]))) 5 = None ->
      calls (removeFile 5 backend (page_with [listed (lit "a") None]))
      = calls (page_with [listed (lit "a") None])).
Proof.
  apply (removeFile_failure_keeps_the_list 5 backend
           (page_with [listed (lit "a") None])).
  left. reflexivity.
Defined.

(** X21.  [deleteHistory]: deleting a chat other than the open one, or a
    deletion the backend refuses, leaves the conversation shown, its chat
    id and the input as they were.  The delete request comes first, and
    only a reload of the history list can follow it. *)
Theorem deleting_another_chat_keeps_conversation (chatId : JsString.t)
    (env : Backend) (x : Session) :
  same_chat (currentChatId (state (page x))) chatId = false
  \/ (exists detail, delete_history env = Rejected detail) ->
  messages (state (page (deleteHistory chatId env x)))
  = messages (state (page x))
  /\ currentChatId (state (page (deleteHistory chatId env x)))
     = currentChatId (state (page x))
  /\ input (state (page (deleteHistory chatId env x)))
     = input (state (page x))
  /\ exists rest,
       calls (deleteHistory chatId env x)
       = calls x ++ DeleteHistory chatId :: rest
       /\ (rest = [] \/ rest = [Chat GetHistories]).
Proof.
  intros H. unfold deleteHistory, fetchChatHistories. cbv zeta.
  destruct (delete_history env) as [[]|detail] eqn:Hdel.
  - destruct H as [H | [d H]]; [| discriminate]. rewrite H.
    destruct (get_histories (chat env)); simpl;
      repeat split; exists [Chat GetHistories];
      rewrite <- app_assoc; auto.
  - simpl. repeat split. exists []. rewrite app_nil_r. auto.
Qed.

Lemma deleting_another_chat_keeps_conversation_witness :
  messages (state (page (deleteHistory (lit "c2") backend (page_with []))))
  = messages (state (page (page_with [])))
  /\ currentChatId (state (page (deleteHistory (lit "c2") backend
                                   (page_with []))))
     = currentChatId (state (page (page_with [])))
  /\ input (state (page (deleteHistory (lit "c2") backend (page_with []))))
     = input (state (page (page_with [])))
  /\ exists rest,
       calls (deleteHistory (lit "c2") backend (page_with []))
       = calls (page_with []) ++ DeleteHistory (lit "c2") :: rest
       /\ (rest = [] \/ rest = [Chat GetHistories]).
Proof.
  apply (deleting_another_chat_keeps_conversation (lit "c2") backend
           (page_with [])).
  left. reflexivity.
Defined.

(** X22.  A submit while another one is in progress: the second variant
    ignores it, the first variant accepts it and, in an open chat, sends
    the chat request. *)
Theorem only_second_variant_guards_busy_form (s : State) (env : Env) :
  truthy (trim (input s)) = true ->
  isLoading s = true ->
  truthy_opt (currentChatId s) = true ->
  V2.handleSubmit s env = start s
  /\ existsb is_chat (requests (V1.handleSubmit s env)) = true.
Proof.
  intros Hin Hbusy Hid. split.
  - unfold V2.handleSubmit. rewrite Hbusy, orb_true_r. reflexivity.
  - v1_branches s env; try (rewrite Hin in *; discriminate);
      try (rewrite Hid in *; discriminate);
      try v1_loop s; try destruct (read_fails b);
      unfold V1.on_catch, V1.update_chat, fetchChatHistories;
      split_cases; reflexivity.
Qed.

Lemma only_second_variant_guards_busy_form_witness :
  V2.handleSubmit
    (mkState [question] (lit "again") true None [] (Some (lit "c1")))
    (serving [hello_stream])
  = start (mkState [question] (lit "again") true None [] (Some (lit "c1")))
  /\ existsb is_chat
       (requests
          (V1.handleSubmit
             (mkState [question] (lit "again") true None []
                (Some (lit "c1")))
             (serving [hello_stream])))
     = true.
Proof.
  apply (only_second_variant_guards_busy_form
           (mkState [question] (lit "again") true None [] (Some (lit "c1")))
           (serving [hello_stream]));
    reflexivity.
Defined.

(** X23.  The history sent with the chat request: the first variant sends
    the messages of the conversation as they are, without the new user
    message; the second variant sends them with the new user message at
    the end and with every [sources] field left out. *)
Theorem history_sent_with_the_question (s : State) (env : Env) :
  Forall (sends_history (messages s)) (requests (V1.handleSubmit s env))
  /\ Forall
       (sends_history
          (map (fun msg => mkMessage (role msg) (content msg) None)
             (messages s ++ [asked s])))
       (requests (V2.handleSubmit s env)).
Proof.
  split.
  - v1_branches s env; try v1_loop s; try destruct (read_fails b);
      unfold V1.on_catch, V1.update_chat, fetchChatHistories;
      split_cases; simpl;
      repeat (constructor; try exact I; try reflexivity).
  - v2_branches s env; try v2_loop s;
      try match goal with
          | |- context [match ?t with true => _ | false => _ end] =>
              destruct t
          end;
      unfold V2.on_catch, V2.saveOrUpdateChatHistory, fetchChatHistories;
      cbv zeta; split_cases; simpl;
      repeat (constructor; try exact I; try reflexivity).
Qed.
